(** * Question importer: CSV records to the two-sheet import workbook

    A shallow embedding of [csv_to_xlsx_converter.py]: the row parser
    [parse_csv_questions], the table builder [create_xlsx_output] with its
    inner [natural_sort_key], and the part of [main] between them.

    Python values are modelled as the interpreter has them:
    - a [str] is a sequence of Unicode code points, so a list of [N];
    - an exception is an outcome of the [result] monad;
    - a row of [csv.DictReader] is a finite map from column names to a
      string or [None] (the filler of a short row);
    - a [dict] that is iterated is an association list in insertion order;
    - [int] raises ValueError on more than 4300 digits, the default of
      [sys.int_info], and [chr] raises OverflowError on an argument outside
      the range of a C [int].

    The Unicode character database that [str.strip], [str.isdigit],
    [str.isalpha], [str.upper], [str.lower], [int] and the regular expression
    class [\d] consult is a parameter (class [Unicode]); [latin1] is its
    restriction to U+0000..U+00FF, on which the examples are evaluated. *)

From Stdlib Require Import ZArith List Lia String Ascii Sorted.
From stdpp Require Import base tactics option list gmap strings pretty.

Local Open Scope Z_scope.
Local Set Warnings "-clear-no-such-hyp".

(** ** Exceptions *)

Inductive exn :=
  | TypeError
  | ValueError
  | AttributeError
  | OverflowError
  | SystemExit (code : Z).

Inductive result (A : Type) :=
  | Ok (a : A)
  | Raise (e : exn).
Arguments Ok {A} a.
Arguments Raise {A} e.

Global Instance result_ret : MRet result := λ A a, Ok a.
Global Instance result_bind : MBind result := λ A B f m,
  match m with
  | Ok a => f a
  | Raise e => Raise e
  end.

Definition raises {A} (m : result A) : bool :=
  match m with
  | Ok _ => false
  | Raise _ => true
  end.

(** A comprehension [[f x for x in l]] whose body may raise. *)
Fixpoint for_each {A B} (f : A → result B) (l : list A) : result (list B) :=
  match l with
  | [] => Ok []
  | x :: l' => y ← f x; ys ← for_each f l'; Ok (y :: ys)
  end.

(** ** Python strings *)

Abbreviation str := (list N).

(** A literal of the source, all of whose characters are below U+0100. *)
Definition lit (s : string) : str := N_of_ascii <$> list_ascii_of_string s.

Class Unicode := {
  (** [Py_UNICODE_ISSPACE] *)
  isspace_char : N → bool;
  (** [Py_UNICODE_ISDIGIT]: Numeric_Type is Digit or Decimal *)
  isdigit_char : N → bool;
  (** [Py_UNICODE_ISALPHA]: general category L* *)
  isalpha_char : N → bool;
  (** [Py_UNICODE_TODECIMAL]: the value of a character of category Nd *)
  decimal_char : N → option Z;
  (** [str.upper] and [str.lower]: full case mapping, which may change the
      length of a string *)
  upper : str → str;
  lower : str → str;
}.

Module Py.
Section builtins.
Context `{Unicode}.

Fixpoint lstrip (s : str) : str :=
  match s with
  | c :: s' => if isspace_char c then lstrip s' else s
  | [] => []
  end.

(** [s.strip()] *)
Definition strip (s : str) : str := reverse (lstrip (reverse (lstrip s))).

(** [s.isdigit()] and [s.isalpha()]: false on the empty string. *)
Definition isdigit (s : str) : bool :=
  negb (bool_decide (s = [])) && forallb isdigit_char s.
Definition isalpha (s : str) : bool :=
  negb (bool_decide (s = [])) && forallb isalpha_char s.

(** [sys.int_info.default_max_str_digits]: [int] refuses a string of more
    digits. *)
Definition max_str_digits : nat := 4300.

(** [int(s)] on a string that passed [isdigit]: the base-ten value when
    every character is a decimal digit and there are no more digits than the
    limit allows, [ValueError] otherwise. *)
Fixpoint int_digits (acc : Z) (s : str) : result Z :=
  match s with
  | [] => Ok acc
  | c :: s' =>
      match decimal_char c with
      | Some d => int_digits (10 * acc + d) s'
      | None => Raise ValueError
      end
  end.
Definition int (s : str) : result Z :=
  match s with
  | [] => Raise ValueError
  | _ =>
      if (max_str_digits <? length s)%nat then Raise ValueError
      else int_digits 0 s
  end.

(** [re.findall(r'\d+', s)]: the maximal runs of decimal digits. *)
Fixpoint findall_digits_go (run : str) (s : str) : list str :=
  match s with
  | [] => match run with [] => [] | _ => [reverse run] end
  | c :: s' =>
      if bool_decide (is_Some (decimal_char c)) then findall_digits_go (c :: run) s'
      else match run with
           | [] => findall_digits_go [] s'
           | _ => reverse run :: findall_digits_go [] s'
           end
  end.
Definition findall_digits (s : str) : list str := findall_digits_go [] s.
End builtins.

(** [ord(s)]: the code point of a one-character string. *)
Definition ord (s : str) : result Z :=
  match s with
  | [c] => Ok (Z.of_N c)
  | _ => Raise TypeError
  end.

(** [chr(n)]: the argument is converted to a C [int] first, which raises
    [OverflowError] outside its range; a value that is no code point raises
    [ValueError]. *)
Definition chr (n : Z) : result str :=
  if (n <? -0x80000000) || (0x7FFFFFFF <? n) then Raise OverflowError
  else if (0 <=? n) && (n <? 0x110000) then Ok [Z.to_N n]
  else Raise ValueError.

(** [s.split(sep)] for a one-character separator. *)
Fixpoint split (sep : N) (s : str) : list str :=
  match s with
  | [] => [[]]
  | c :: s' =>
      if (c =? sep)%N then [] :: split sep s'
      else match split sep s' with
           | t :: ts => (c :: t) :: ts
           | [] => [[c]]
           end
  end.

(** [sep.join(l)] *)
Fixpoint join (sep : str) (l : list str) : str :=
  match l with
  | [] => []
  | [s] => s
  | s :: l' => s ++ sep ++ join sep l'
  end.

(** [s.replace(old, new)] for a non-empty [old]: occurrences are replaced
    from the left and do not overlap; [skip] counts the characters of a
    replaced occurrence that are still to be passed over. *)
Fixpoint replace_go (old new : str) (skip : nat) (s : str) : str :=
  match s with
  | [] => []
  | c :: s' =>
      match skip with
      | S k => replace_go old new k s'
      | O =>
          if bool_decide (old `prefix_of` s)
          then new ++ replace_go old new (length old - 1) s'
          else c :: replace_go old new 0 s'
      end
  end.
Definition replace (old new s : str) : str := replace_go old new 0 s.

(** [a < b] on strings: lexicographic on code points. *)
Fixpoint str_lt (a b : str) : bool :=
  match a, b with
  | _, [] => false
  | [], _ :: _ => true
  | x :: a', y :: b' => (x <? y)%N || ((x =? y)%N && str_lt a' b')
  end.

(** [a < b] on tuples of integers. *)
Fixpoint ints_lt (a b : list Z) : bool :=
  match a, b with
  | _, [] => false
  | [], _ :: _ => true
  | x :: a', y :: b' => (x <? y) || ((x =? y) && ints_lt a' b')
  end.

(** [str(n)] and [f'{n}'] for a non-negative integer. *)
Definition str_of_nat (n : nat) : str := lit (pretty n).

(** [sorted(l)] with a comparison that may raise.  [list.sort] calls only
    [<] and is stable; it is modelled as the insertion of each element, in
    input order, behind the elements it is not smaller than. *)
Section sorted.
Context {A : Type} (lt : A → A → result bool).

Fixpoint insort (x : A) (l : list A) : result (list A) :=
  match l with
  | [] => Ok [x]
  | y :: l' =>
      b ← lt x y;
      if b : bool then Ok (x :: y :: l')
      else (r ← insort x l'; Ok (y :: r))
  end.

Fixpoint sorted_from (acc l : list A) : result (list A) :=
  match l with
  | [] => Ok acc
  | x :: l' => acc' ← insort x acc; sorted_from acc' l'
  end.

Definition sorted (l : list A) : result (list A) := sorted_from [] l.
End sorted.

(** [sorted(l, key=key)]: the keys are computed once, up front, and the
    elements are ordered by comparing their keys. *)
Definition sorted_by {A K} (key : A → result K) (lt : K → K → result bool)
    (l : list A) : result (list A) :=
  decorated ← for_each (λ x, k ← key x; Ok (k, x)) l;
  ordered ← sorted (λ a b : K * A, lt a.1 b.1) decorated;
  Ok (fmap (M:=list) snd ordered).
End Py.

(** ** The character database on U+0000..U+00FF

    Characters from U+0100 on are left unclassified and unchanged by the case
    mappings here; every example below stays under U+0100 in its input and in
    the uppercase of its input (the capitals of U+00B5 and U+00FF lie beyond
    U+00FF). *)

Definition between (lo hi c : N) : bool := ((lo <=? c) && (c <=? hi))%N.

Definition latin1_isspace (c : N) : bool :=
  between 0x09 0x0D c || between 0x1C 0x20 c || (c =? 0x85)%N || (c =? 0xA0)%N.

Definition latin1_decimal (c : N) : option Z :=
  if between 0x30 0x39 c then Some (Z.of_N c - 0x30) else None.

Definition latin1_isdigit (c : N) : bool :=
  between 0x30 0x39 c || (c =? 0xB2)%N || (c =? 0xB3)%N || (c =? 0xB9)%N.

Definition latin1_isalpha (c : N) : bool :=
  between 0x41 0x5A c || between 0x61 0x7A c
  || (c =? 0xAA)%N || (c =? 0xB5)%N || (c =? 0xBA)%N
  || between 0xC0 0xD6 c || between 0xD8 0xF6 c || between 0xF8 0xFF c.

Definition latin1_upper_char (c : N) : str :=
  if between 0x61 0x7A c || between 0xE0 0xF6 c || between 0xF8 0xFE c
  then [(c - 0x20)%N]
  else if (c =? 0xB5)%N then [0x39C%N]
  else if (c =? 0xDF)%N then [0x53%N; 0x53%N]
  else if (c =? 0xFF)%N then [0x178%N]
  else [c].

Definition latin1_lower_char (c : N) : str :=
  if between 0x41 0x5A c || between 0xC0 0xD6 c || between 0xD8 0xDE c
  then [(c + 0x20)%N]
  else [c].

Global Instance latin1 : Unicode := {|
  isspace_char := latin1_isspace;
  isdigit_char := latin1_isdigit;
  isalpha_char := latin1_isalpha;
  decimal_char := latin1_decimal;
  upper := λ s, s ≫= latin1_upper_char;
  lower := λ s, s ≫= latin1_lower_char;
|}.

(** ** Data model *)

(** What [csv.DictReader] stores under a column name: the field, or [None]
    when the row is shorter than the header. *)
Inductive value :=
  | PyNone
  | PyStr (s : str).

Abbreviation row := (gmap string value).

Inductive QuestionType := TF | MC | MA.

Global Instance QuestionType_eq_dec : EqDecision QuestionType.
Proof. solve_decision. Defined.

(** The dictionary [question_entry]. *)
Record Question := {
  type : QuestionType;
  question : str;
  explanation : str;
  choices : list str;
  correct_indices : list Z;
  source : str;
}.

(** A cell of the Debug sheet: text or a number. *)
Inductive cell :=
  | CStr (s : str)
  | CInt (n : Z).

(** ** parse_csv_questions *)

Section parser.
Context `{Unicode}.

(** Truth value of [row.get(k)] and of [row[k]]. *)
Definition truthy (v : option value) : bool :=
  match v with
  | Some (PyStr (_ :: _)) => true
  | _ => false
  end.

(** [row.get(k, '')] *)
Definition get_or_empty (r : row) (k : string) : value :=
  default (PyStr []) (r !! k).

(** [v.strip()] on what a row holds: [None] has no such method. *)
Definition value_strip (v : value) : result str :=
  match v with
  | PyStr s => Ok (Py.strip s)
  | PyNone => Raise AttributeError
  end.

(** [f'Choice {i}'] *)
Definition choice_key (i : nat) : string := "Choice " +:+ pretty i.

(** The [while True] loop over [Choice 1], [Choice 2], ...: one unit of
    [fuel] per iteration. *)
Fixpoint extract_choices_from (fuel : nat) (r : row) (i : nat) : list str :=
  match fuel with
  | O => []
  | S fuel' =>
      match r !! choice_key i with
      | Some (PyStr s) =>
          if truthy (Some (PyStr s)) && truthy (Some (PyStr (Py.strip s)))
          then Py.strip s :: extract_choices_from fuel' r (S i)
          else []
      | _ => []
      end
  end.

(** A row with [n] columns has at most [n] choice columns, so [S n]
    iterations reach the [break] (lemma [extract_choices_breaks]). *)
Definition extract_choices (r : row) : list str :=
  extract_choices_from (S (size r)) r 1.

Definition comma : N := 0x2C.

(** [sub in s] for a one-character [sub]. *)
Definition contains_char (c : N) (s : str) : bool := bool_decide (c ∈ s).

(** [x in l] for a list of strings or of integers. *)
Definition contains `{EqDecision A} (x : A) (l : list A) : bool :=
  bool_decide (x ∈ l).

(** The body of the loop over [correct_answer.split(',')]: the index a
    token appends, if any. *)
Definition token_index (x : str) : result (option Z) :=
  let x := upper (Py.strip x) in
  if Py.isdigit x then n ← Py.int x; Ok (Some (n - 1))
  else if bool_decide (length x = 1%nat) && Py.isalpha x
  then c ← Py.ord x; a ← Py.ord (lit "A"); Ok (Some (c - a))
  else Ok None.

Fixpoint multi_indices (tokens : list str) : result (list Z) :=
  match tokens with
  | [] => Ok []
  | x :: rest =>
      i ← token_index x;
      indices ← multi_indices rest;
      Ok (match i with Some i => i :: indices | None => indices end)
  end.

(** The [for i, choice in enumerate(choices)] loop of the last branch. *)
Fixpoint text_match (correct_answer : str) (i : Z) (choices : list str) : list Z :=
  match choices with
  | [] => []
  | choice :: rest =>
      if bool_decide (lower choice = lower correct_answer) then [i]
      else text_match correct_answer (i + 1) rest
  end.

Definition infer_type (choices : list str) : QuestionType :=
  if bool_decide (length choices = 2%nat)
     && contains (lit "True") choices && contains (lit "False") choices
  then TF else MC.

(** The [if ',' in correct_answer: ... elif ... else] chain: the final
    question type and the index list. *)
Definition resolve (question_type : QuestionType) (choices : list str)
    (correct_answer : str) : result (QuestionType * list Z) :=
  if contains_char comma correct_answer then
    indices ← multi_indices (Py.split comma correct_answer);
    Ok (MA, indices)
  else if contains (lower correct_answer) [lit "true"; lit "false"] then
    Ok (question_type,
        [if bool_decide (lower correct_answer = lit "true") then 0 else 1])
  else if Py.isdigit correct_answer then
    n ← Py.int correct_answer;
    Ok (question_type, [n - 1])
  else if bool_decide (length (Py.strip correct_answer) = 1%nat)
          && Py.isalpha (upper (Py.strip correct_answer)) then
    let letter := upper (Py.strip correct_answer) in
    c ← Py.ord letter; a ← Py.ord (lit "A");
    Ok (question_type, [c - a])
  else
    Ok (question_type, text_match correct_answer 0 choices).

(** The body of [for row in reader]: [None] when the row is skipped. *)
Definition parse_row (r : row) : result (option Question) :=
  if negb (truthy (r !! "Question")) then Ok None else
  question_text ← value_strip (get_or_empty r "Question");
  if negb (truthy (Some (PyStr question_text))) then Ok None else
  explanation ← value_strip (get_or_empty r "Explanation");
  source ← value_strip (get_or_empty r "Source");
  let choices := extract_choices r in
  correct_answer ← value_strip (get_or_empty r "Correct Answer");
  '(question_type, correct_indices) ←
    resolve (infer_type choices) choices correct_answer;
  Ok (Some {| type := question_type;
              question := question_text;
              explanation := explanation;
              choices := choices;
              correct_indices := correct_indices;
              source := source |}).

Fixpoint parse_csv_questions (reader : list row) : result (list Question) :=
  match reader with
  | [] => Ok []
  | r :: reader' =>
      q ← parse_row r;
      questions ← parse_csv_questions reader';
      Ok (match q with Some q => q :: questions | None => questions end)
  end.
End parser.

(** ** create_xlsx_output *)

(** The two sheets handed to the spreadsheet writer: [Questions] is
    [rows] (header first), [Debug] is [debug_rows]. *)
Record Workbook := {
  Questions : list (list str);
  Debug : list (list cell);
}.

(** The key [natural_sort_key] returns: a tuple of integers, or the
    one-element tuple holding the section name. *)
Inductive sort_key :=
  | IntTuple (t : list Z)
  | StrTuple (s : str).

(** [a < b] on these tuples.  Tuples are compared at their first differing
    position, and an integer there against a string raises [TypeError]; only
    an empty tuple compares with anything. *)
Definition tuple_lt (a b : sort_key) : result bool :=
  match a, b with
  | IntTuple x, IntTuple y => Ok (Py.ints_lt x y)
  | StrTuple x, StrTuple y => Ok (Py.str_lt x y)
  | IntTuple [], StrTuple _ => Ok true
  | StrTuple _, IntTuple [] => Ok false
  | IntTuple (_ :: _), StrTuple _ => Raise TypeError
  | StrTuple _, IntTuple (_ :: _) => Raise TypeError
  end.

Section builder.
Context `{Unicode}.

(** [q['source'] if q['source'] else section_id] *)
Definition section_of (section_id : str) (q : Question) : str :=
  if truthy (Some (PyStr (source q))) then source q else section_id.

Definition type_name (t : QuestionType) : str :=
  match t with
  | TF => lit "TF"
  | MC => lit "MC"
  | MA => lit "MA"
  end.

Definition header : list str :=
  lit <$> ["Type"; "Question"; "Explanation"; "Answer"; "Correct";
           "Meta Key"; "Meta Value"]%string.

Definition blank_row : list str := replicate 7 (lit "").

(** ['1' if i in q['correct_indices'] else ''] *)
Definition correct_mark (q : Question) (i : nat) : str :=
  if contains (Z.of_nat i) (correct_indices q) then lit "1" else lit "".

Definition first_row (section_id : str) (q : Question) : list str :=
  [type_name (type q); question q; explanation q; choices q !!! 0%nat;
   correct_mark q 0; lit "ID"; section_of section_id q].

Definition answer_row (q : Question) (i : nat) : list str :=
  [lit ""; lit ""; lit ""; choices q !!! i; correct_mark q i; lit ""; lit ""].

(** The rows one question appends to [rows]. *)
Definition question_rows (section_id : str) (q : Question) : list (list str) :=
  (if bool_decide (choices q ≠ [])
   then first_row section_id q
        :: (answer_row q <$> seq 1 (length (choices q) - 1))
   else [])
  ++ [blank_row].

Definition rows (questions : list Question) (section_id : str) : list (list str) :=
  header :: (questions ≫= question_rows section_id).

(** [d[k] = d.get(k, 0) + 1] on a dictionary kept in insertion order. *)
Fixpoint dict_incr (k : str) (d : list (str * nat)) : list (str * nat) :=
  match d with
  | [] => [(k, 1%nat)]
  | (k', n) :: d' =>
      if bool_decide (k' = k) then (k', (n + 1)%nat) :: d'
      else (k', n) :: dict_incr k d'
  end.

Definition section_counts (questions : list Question) (section_id : str)
    : list (str * nat) :=
  foldl (λ d q, dict_incr (section_of section_id q) d) [] questions.

Definition natural_sort_key (item : str * nat) : result sort_key :=
  let section := item.1 in
  let parts := Py.findall_digits section in
  if bool_decide (2 ≤ length parts)%nat
  then t ← for_each Py.int parts; Ok (IntTuple t)
  else Ok (StrTuple section).

Definition summary_block (total tracks : nat) : list (list cell) :=
  [ [CStr (lit "Metric"); CStr (lit "Value")];
    [CStr (lit "Total Questions Parsed"); CInt (Z.of_nat total)];
    [CStr (lit "Total Tracks/Sections"); CInt (Z.of_nat tracks)];
    [CStr (lit "Keep Answer Prefixes"); CStr (lit "No")];
    [CStr (lit "Parsing Errors"); CInt 0];
    [CStr (lit "")];
    [CStr (lit "Track Details")] ].

(** [[f'  {section}', f'{count} questions']] *)
Definition track_row (item : str * nat) : list cell :=
  [CStr (lit "  " ++ item.1); CStr (Py.str_of_nat item.2 ++ lit " questions")].

Definition errors_block : list (list cell) :=
  [ [CStr (lit "")];
    [CStr (lit "Parsing Errors:")];
    [CStr (lit "  None detected")];
    [CStr (lit "")];
    CStr ∘ lit <$> ["Track"; "Q#"; "Question Preview"; "Correct Answer";
                    "Page Ref"; "Has Explanation"]%string ].

Definition correct_letter (q : Question) : result str :=
  match correct_indices q with
  | [] => Ok (lit "")
  | _ =>
      correct_letters ← for_each (λ idx, Py.chr (65 + idx)) (correct_indices q);
      ordered ← Py.sorted (λ a b, Ok (Py.str_lt a b)) correct_letters;
      Ok (Py.join (lit ", ") ordered)
  end.

Definition question_preview (q : Question) : str :=
  if bool_decide (50 < length (question q))%nat
  then take 47 (question q) ++ lit "..."
  else question q.

Definition has_explanation (q : Question) : str :=
  if truthy (Some (PyStr (Py.strip (explanation q)))) then lit "Yes" else lit "No".

Definition audit_row (section_id : str) (i : nat) (q : Question)
    : result (list cell) :=
  letter ← correct_letter q;
  Ok [CStr (section_of section_id q); CStr (Py.str_of_nat i);
      CStr (question_preview q); CStr letter; CStr (lit "");
      CStr (has_explanation q)].

(** [for i, q in enumerate(questions, 1)] *)
Fixpoint audit_rows (section_id : str) (i : nat) (questions : list Question)
    : result (list (list cell)) :=
  match questions with
  | [] => Ok []
  | q :: rest =>
      r ← audit_row section_id i q;
      rs ← audit_rows section_id (S i) rest;
      Ok (r :: rs)
  end.

Definition debug_rows (questions : list Question) (section_id : str)
    : result (list (list cell)) :=
  let counts := section_counts questions section_id in
  let summary := summary_block (length questions) (length counts) in
  items ← Py.sorted_by natural_sort_key tuple_lt counts;
  audit ← audit_rows section_id 1 questions;
  Ok (summary ++ (track_row <$> items) ++ errors_block ++ audit).

(** The two tables as they are handed to the writer, and the count that is
    returned after the write.  The write itself (lines 207 to 210) lies
    outside the model: [Ok] says that the tables were built, and an exception
    of the writer, such as the IllegalCharacterError of openpyxl on a control
    character, is no outcome here. *)
Definition create_xlsx_output (questions : list Question) (section_id : str)
    : result (Workbook * nat) :=
  let rows := rows questions section_id in
  debug_rows ← debug_rows questions section_id;
  Ok ({| Questions := rows; Debug := debug_rows |}, length questions).

(** ** main, from the parse to the workbook

    [stem] is [input_csv.stem] and [reader] the rows of the input file: the
    checks of the command line and of the input file have passed.  As with
    [create_xlsx_output], the outcome is that of the run up to the two
    tables. *)
Definition filename_section_id (stem : str) : str :=
  let section_id :=
    upper (Py.replace (lit "_") (lit "-") (Py.replace (lit " ") (lit "-") stem)) in
  Py.replace (lit "-FORMATTED") (lit "")
    (Py.replace (lit ".CSV") (lit "")
       (Py.replace (lit ".XLSX") (lit "") section_id)).

Definition main (stem : str) (reader : list row) : result Workbook :=
  questions ← parse_csv_questions reader;
  match questions with
  | [] => Raise (SystemExit 1)
  | q0 :: _ =>
      let section_id :=
        if truthy (Some (PyStr (source q0))) then Py.strip (source q0)
        else filename_section_id stem in
      '(workbook, _) ← create_xlsx_output questions section_id;
      Ok workbook
  end.
End builder.


(** ** transform_questions_csv.py: convert_answer_letter_to_number *)

(** The dictionary [letter_map]. *)
Definition letter_map : gmap str str :=
  list_to_map [(lit "a", lit "1"); (lit "b", lit "2");
               (lit "c", lit "3"); (lit "d", lit "4")].

(** [letter_map.get(letter.lower().strip(), letter)] *)
Definition convert_answer_letter_to_number `{Unicode} (letter : str) : str :=
  default letter (letter_map !! Py.strip (lower letter)).

(** ** transform_questions_csv.py: the loop of transform_questions_csv

    A row of [csv.reader] is a list of strings.  [source_prefix] is the
    value of [extract_source_prefix(INPUT_CSV)]. *)

(** [row[i].strip() if len(row) > i else ''] *)
Definition column `{Unicode} (row : list str) (i : nat) : str :=
  if bool_decide (i < length row)%nat then Py.strip (row !!! i) else lit "".

(** The body of [for row in reader]: the intermediate row that is appended,
    or [None] when the row is skipped. *)
Definition transform_row `{Unicode} (source_prefix : str) (row : list str)
    : option (gmap string value) :=
  if bool_decide (row = []) || bool_decide (length row < 8)%nat then None else
  let question_stem := column row 2 in
  if bool_decide (question_stem = []) then None else
  let answer_a := column row 3 in
  let answer_b := column row 4 in
  let answer_c := column row 5 in
  let answer_d := column row 6 in
  let correct_answer := column row 7 in
  let explanation := column row 8 in
  let question_number := column row 1 in
  let correct_answer := convert_answer_letter_to_number correct_answer in
  let source_id := source_prefix ++ lit "-" ++ question_number in
  Some (list_to_map
          [("Question", PyStr question_stem); ("Choice 1", PyStr answer_a);
           ("Choice 2", PyStr answer_b); ("Choice 3", PyStr answer_c);
           ("Choice 4", PyStr answer_d);
           ("Correct Answer", PyStr correct_answer);
           ("Source", PyStr source_id);
           ("Explanation", PyStr explanation)]%string).

(** The rows the loop collects from the rows that follow the header. *)
Definition transform_rows `{Unicode} (source_prefix : str)
    (reader : list (list str)) : list (gmap string value) :=
  omap (transform_row source_prefix) reader.

(** ** Auxiliary notions used in the statements *)

Section aux.
Context `{Unicode}.

(** The value [int] gives to a run of decimal digits. *)
Definition digits_value (s : str) : Z :=
  foldl (λ acc c, 10 * acc + default 0 (decimal_char c)) 0 s.

(** The key [natural_sort_key] computes, as a total function. *)
Definition key_of (item : str * nat) : sort_key :=
  let parts := Py.findall_digits item.1 in
  if bool_decide (2 ≤ length parts)%nat
  then IntTuple (digits_value <$> parts)
  else StrTuple item.1.

(** A tag that sorts by its numbers, as opposed to by its text. *)
Definition has_numeric_key (tag : str) : bool :=
  bool_decide (2 ≤ length (Py.findall_digits tag))%nat.
End aux.

(** The two kinds of key that cannot be compared with each other: a
    non-empty integer tuple and a string tuple. *)
Definition key_kind (k : sort_key) : option bool :=
  match k with
  | IntTuple (_ :: _) => Some true
  | IntTuple [] => None
  | StrTuple _ => Some false
  end.

(** The multi-answer rule in the words of the specification: split on
    commas, trim and uppercase each token, map an all-digit token to its
    parsed integer minus one and a single alphabetic character to its position
    in the alphabet, and skip every other token. *)
Section spec_multi_answer.
Context `{Unicode}.

Definition alphabet_position (letter : str) : Z :=
  match letter with
  | [c] => Z.of_N c - Z.of_N 0x41
  | _ => 0
  end.

Definition spec_token_index (token : str) : option Z :=
  let token := upper (Py.strip token) in
  if Py.isdigit token then Some (digits_value token - 1)
  else if bool_decide (length token = 1%nat) && Py.isalpha token
  then Some (alphabet_position token)
  else None.

Definition spec_multi_indices (correct_answer : str) : list Z :=
  omap spec_token_index (Py.split comma correct_answer).

(** A token that [str.isdigit] accepts and that [int] can parse: every
    character of it is a decimal digit, and there are no more of them than
    [int] accepts. *)
Definition decimal_if_digit (token : str) : Prop :=
  Py.isdigit (upper (Py.strip token)) = true →
  Forall (λ c, is_Some (decimal_char c)) (upper (Py.strip token))
  ∧ (length (upper (Py.strip token)) ≤ Py.max_str_digits)%nat.
End spec_multi_answer.

(** The choices that make a true/false question. *)
Definition true_false (choices : list str) : Prop :=
  choices = [lit "True"; lit "False"] ∨ choices = [lit "False"; lit "True"].

Global Instance true_false_dec choices : Decision (true_false choices).
Proof. unfold true_false. apply _. Defined.


(** The code point of [chr(65 + idx)]. *)
Definition letter_of (idx : Z) : N := Z.to_N (65 + idx).

Section choice_columns.
Context `{Unicode}.

(** The choice the loop takes from column [Choice i], if it takes one. *)
Definition choice_at (r : row) (i : nat) : option str :=
  match r !! choice_key i with
  | Some (PyStr s) =>
      if truthy (Some (PyStr s)) && truthy (Some (PyStr (Py.strip s)))
      then Some (Py.strip s)
      else None
  | _ => None
  end.
End choice_columns.

(** A record without a question: the column is missing, holds [None], or
    holds only white space. *)
Definition blank_question `{Unicode} (r : row) : Prop :=
  match r !! "Question"%string with
  | Some (PyStr s) => Py.strip s = []
  | _ => True
  end.

(** [a < b] on two keys of the same kind, as a truth value. *)
Definition key_ltb (a b : sort_key) : bool :=
  match a, b with
  | IntTuple x, IntTuple y => Py.ints_lt x y
  | StrTuple x, StrTuple y => Py.str_lt x y
  | _, _ => false
  end.

(** An index [chr(65 + idx)] accepts. *)
Definition has_letter (idx : Z) : Prop := 0 ≤ 65 + idx < 0x110000.

Global Instance has_letter_dec idx : Decision (has_letter idx).
Proof. unfold has_letter. apply _. Defined.

(** The tags of the questions, the default in place of the empty ones, all
    sort by numbers ([k] true) or all sort by text ([k] false). *)
Definition tags_of_kind `{Unicode} (k : bool) (section_id : str)
    (questions : list Question) : Prop :=
  Forall (λ q, has_numeric_key (section_of section_id q) = k) questions.

(** Every correct index of every question has a character for [chr]. *)
Definition letters_exist (questions : list Question) : Prop :=
  Forall (λ q, Forall has_letter (correct_indices q)) questions.

(** A tag whose key [natural_sort_key] can compute: the tag sorts by its
    text, or none of its groups of digits is longer than [int] accepts. *)
Definition key_computable `{Unicode} (tag : str) : bool :=
  negb (has_numeric_key tag)
  || forallb (λ p, (length p <=? Py.max_str_digits)%nat) (Py.findall_digits tag).

Definition keys_computable `{Unicode} (section_id : str)
    (questions : list Question) : bool :=
  forallb (λ q, key_computable (section_of section_id q)) questions.

(** The range of a C [int], and what [chr(65 + idx)] raises for an index
    without a character: [ValueError] in that range, [OverflowError]
    outside. *)
Definition c_int (n : Z) : Prop := -0x80000000 ≤ n ≤ 0x7FFFFFFF.

Global Instance c_int_dec n : Decision (c_int n).
Proof. unfold c_int. apply _. Defined.

Definition chr_exn (idx : Z) : exn :=
  if decide (c_int (65 + idx)) then ValueError else OverflowError.

(** The first correct index, in the order of the audit rows, for which
    [chr(65 + idx)] has no character. *)
Definition first_bad_index (questions : list Question) : option Z :=
  head (filter (λ idx, ¬ has_letter idx) (questions ≫= correct_indices)).

(** A string of ASCII characters, and a record whose correct answer, when
    it has one, is such a string. *)
Definition ascii_str (s : str) : Prop := Forall (λ c, (c < 128)%N) s.

Definition ascii_answer (r : row) : Prop :=
  match r !! "Correct Answer"%string with
  | Some (PyStr ca) => ascii_str ca
  | _ => True
  end.

(** A record whose correct answer, when it has one, is no longer than the
    longest string of digits that [int] accepts. *)
Definition short_answer (r : row) : Prop :=
  match r !! "Correct Answer"%string with
  | Some (PyStr ca) => (length ca ≤ Py.max_str_digits)%nat
  | _ => True
  end.

(** The lowercase of one character below U+0100. *)
Definition latin1_lower (c : N) : N :=
  if between 0x41 0x5A c || between 0xC0 0xD6 c || between 0xD8 0xDE c
  then (c + 0x20)%N
  else c.

(** The answers up to the first empty one. *)
Fixpoint leading_answers (answers : list str) : list str :=
  match answers with
  | a :: rest => if bool_decide (a = []) then [] else a :: leading_answers rest
  | [] => []
  end.

(** Two facts of the character database: decimal digits have values from
    zero up, and no letter stands before the capital A. *)
Definition digits_from_zero `{Unicode} : Prop :=
  ∀ c d, decimal_char c = Some d → 0 ≤ d.

Definition letters_from_A `{Unicode} : Prop :=
  ∀ c, isalpha_char c = true → (0x41 ≤ c)%N.

(** Uppercasing brings in no space and no underscore. *)
Definition upper_keeps_separators `{Unicode} : Prop :=
  ∀ s c, c ∈ upper s → c = 0x20%N ∨ c = 0x5F%N → c ∈ s.

(** A column that a short row left at [None]. *)
Definition is_None (r : row) (k : string) : Prop := r !! k = Some PyNone.

(** ** Example inputs *)

Definition make_row (fields : list (string * str)) : row :=
  list_to_map (prod_map id PyStr <$> fields).

Definition make_question (text : str) (choices : list str)
    (correct_indices : list Z) (source : str) : Question :=
  {| type := MC; question := text; explanation := []; choices := choices;
     correct_indices := correct_indices; source := source |}.

(** A question text of sixty characters. *)
Definition sixty : str := replicate 60 0x78%N.

(** A true/false record whose answer field holds a comma. *)
Definition true_false_comma_row : row :=
  make_row [("Question", lit "The sky is blue."); ("Choice 1", lit "True");
            ("Choice 2", lit "False"); ("Correct Answer", lit "True,False")]%string.

Definition four_choices (correct_answer : str) : row :=
  make_row [("Question", lit "Which one?"); ("Choice 1", lit "north");
            ("Choice 2", lit "east"); ("Choice 3", lit "south");
            ("Choice 4", lit "west"); ("Correct Answer", correct_answer)]%string.

(** U+00B2, superscript two: a digit for [str.isdigit], not a decimal. *)
Definition superscript_two : N := 0xB2.

(** What the parser makes of the correct answer "9" with four choices. *)
Definition nine_of_four : Question :=
  {| type := MC; question := lit "Which one?"; explanation := [];
     choices := [lit "north"; lit "east"; lit "south"; lit "west"];
     correct_indices := [8]; source := [] |}.

(** A row of the source sheet whose answer B is empty. *)
Definition sheet_row : list str :=
  [lit "Book"; lit "1.1"; lit " What? "; lit "x"; lit ""; lit "z"; lit "w";
   lit "b"; lit "because"].

(** * Properties *)

(** ** The result monad *)

Lemma bind_Ok {A B} (m : result A) (f : A → result B) (b : B) :
  m ≫= f = Ok b ↔ ∃ a, m = Ok a ∧ f a = Ok b.
Proof.
  destruct m as [a|e]; simpl; split.
  - eauto.
  - by intros (? & [= <-] & ?).
  - done.
  - by intros (? & ? & _).
Qed.

Lemma bind_Raise {A B} (m : result A) (f : A → result B) (e : exn) :
  m ≫= f = Raise e ↔ m = Raise e ∨ ∃ a, m = Ok a ∧ f a = Raise e.
Proof.
  destruct m as [a|e']; simpl; split.
  - intros Hf. right. eauto.
  - by intros [|(? & [= <-] & ?)].
  - intros [= ->]. by left.
  - by intros [[= ->]|(? & ? & _)].
Qed.

Ltac inv_bind H :=
  repeat match type of H with
  | _ ≫= _ = Ok _ =>
      let a := fresh "a" in
      let Ha := fresh "Ha" in
      apply bind_Ok in H as (a & Ha & H)
  end.

Lemma for_each_Ok_length {A B} (f : A → result B) l ys :
  for_each f l = Ok ys → length ys = length l.
Proof.
  revert ys. induction l as [|x l IH]; intros ys Hys; simpl in *.
  - by injection Hys as <-.
  - inv_bind Hys. injection Hys as <-. simpl. f_equal. eauto.
Qed.

Lemma for_each_total {A B} (f : A → result B) (g : A → B) l :
  (∀ x, x ∈ l → f x = Ok (g x)) → for_each f l = Ok (g <$> l).
Proof.
  induction l as [|x l IH]; intros Hf; simpl; [done|].
  rewrite Hf by left. simpl. rewrite IH; [done|].
  intros y Hy. apply Hf. by right.
Qed.

(** ** The Questions sheet *)

Section questions_sheet.
Context `{Unicode}.

Lemma question_rows_shape section_id q :
  ∃ data, question_rows section_id q = data ++ [blank_row]
          ∧ length data = length (choices q).
Proof.
  unfold question_rows. destruct (choices q) as [|c cs] eqn:Hc.
  - by exists [].
  - rewrite bool_decide_true by done. eexists. split; [done|].
    simpl. rewrite length_fmap, length_seq. lia.
Qed.

Lemma body_length section_id questions :
  length (questions ≫= question_rows section_id)
  = (length questions + sum_list (length ∘ choices <$> questions))%nat.
Proof.
  induction questions as [|q qs IH]; [done|].
  rewrite bind_cons, length_app, IH.
  destruct (question_rows_shape section_id q) as (data & -> & Hdata).
  rewrite length_app, Hdata, fmap_cons.
  cbn [sum_list_with length]. unfold compose, id. lia.
Qed.
End questions_sheet.

(** C6. The body of the Questions table of N questions with choice counts
    c_1..c_N has N + (c_1 + ... + c_N) rows: every question contributes one
    data row per choice followed by one separator row of seven empty cells,
    also when it has no choice. *)
Theorem questions_table_row_count `{Unicode} (questions : list Question)
    (section_id : str) :
  ∃ body,
    rows questions section_id = header :: body
    ∧ length body
      = (length questions + sum_list (length ∘ choices <$> questions))%nat
    ∧ body = questions ≫= question_rows section_id
    ∧ ∀ q, ∃ data,
        question_rows section_id q = data ++ [[[]; []; []; []; []; []; []]]
        ∧ length data = length (choices q).
Proof.
  exists (questions ≫= question_rows section_id).
  split; [done|]. split; [apply body_length|]. split; [done|].
  intros q. apply question_rows_shape.
Qed.

(** ** The audit rows of the Debug sheet *)

(** C7. The third cell of a question's audit row is the whole question text
    when it has at most 50 characters, and its first 47 characters followed
    by three dots, 50 characters in all, when it is longer. *)
Theorem preview_truncation `{Unicode} (section_id : str) (i : nat)
    (q : Question) (r : list cell) :
  audit_row section_id i q = Ok r →
  ∃ preview,
    r !! 2%nat = Some (CStr preview)
    ∧ ((length (question q) ≤ 50)%nat → preview = question q)
    ∧ ((50 < length (question q))%nat →
       preview = take 47 (question q) ++ lit "..."
       ∧ length preview = 50%nat).
Proof.
  unfold audit_row. intros Hr. inv_bind Hr. injection Hr as <-.
  exists (question_preview q). split; [done|].
  unfold question_preview. split; intros Hlen.
  - by rewrite bool_decide_false by lia.
  - rewrite bool_decide_true by lia. split; [done|].
    rewrite length_app, length_take.
    change (length (lit "...")) with 3%nat. lia.
Qed.

Lemma preview_truncation_witness :
  ∃ r, audit_row (lit "S1") 1 (make_question sixty [] [0] []) = Ok r
       ∧ ∃ preview,
           r !! 2%nat = Some (CStr preview)
           ∧ ((length sixty ≤ 50)%nat → preview = sixty)
           ∧ ((50 < length sixty)%nat →
              preview = take 47 sixty ++ lit "..." ∧ length preview = 50%nat).
Proof.
  eexists. split; [vm_compute; reflexivity|].
  apply (preview_truncation (lit "S1") 1 (make_question sixty [] [0] [])).
  vm_compute. reflexivity.
Defined.

(** ** Sorting *)

Section sorting.
Context {A : Type} (lt : A → A → result bool).

Lemma insort_Permutation x l r : Py.insort lt x l = Ok r → r ≡ₚ x :: l.
Proof.
  revert r. induction l as [|y l IH]; intros r Hr; simpl in Hr.
  - by injection Hr as <-.
  - inv_bind Hr. destruct a.
    + by injection Hr as <-.
    + inv_bind Hr. injection Hr as <-.
      rewrite (IH _ Ha0). apply Permutation_swap.
Qed.

Lemma sorted_from_Permutation acc l r :
  Py.sorted_from lt acc l = Ok r → r ≡ₚ acc ++ l.
Proof.
  revert acc r. induction l as [|x l IH]; intros acc r Hr; simpl in Hr.
  - injection Hr as <-. by rewrite app_nil_r.
  - inv_bind Hr. rewrite (IH _ _ Hr), (insort_Permutation _ _ _ Ha).
    simpl. apply Permutation_middle.
Qed.

Lemma sorted_Permutation l r : Py.sorted lt l = Ok r → r ≡ₚ l.
Proof. apply sorted_from_Permutation. Qed.

(** Elements of two kinds, where [<] is defined within a kind and raises
    across kinds. *)
Context (kind : A → bool) (good : A → Prop).
Context (lt_same : ∀ a b, good a → good b → kind a = kind b →
                          ∃ c, lt a b = Ok c).
Context (lt_diff : ∀ a b, good a → good b → kind a ≠ kind b →
                          lt a b = Raise TypeError).

Lemma insort_same_kind x acc :
  good x → Forall good acc → Forall (λ y, kind y = kind x) acc →
  ∃ r, Py.insort lt x acc = Ok r.
Proof.
  intros Hx. induction acc as [|y acc IH]; intros Hg Hk; simpl; [eauto|].
  inversion_clear Hg as [|?? Hy Hg']. inversion_clear Hk as [|?? Hky Hk'].
  destruct (lt_same x y) as [c ->]; [done..|]. simpl.
  destruct c; [eauto|]. destruct (IH Hg' Hk') as [r ->]. simpl. eauto.
Qed.

Lemma insort_other_kind x y acc :
  good x → good y → kind y ≠ kind x →
  Py.insort lt x (y :: acc) = Raise TypeError.
Proof. intros Hx Hy Hk. simpl. by rewrite lt_diff. Qed.

Lemma sorted_from_two_kinds l : ∀ acc k,
  acc ≠ [] → Forall good acc → Forall good l →
  Forall (λ y, kind y = k) acc → Exists (λ y, kind y ≠ k) l →
  Py.sorted_from lt acc l = Raise TypeError.
Proof.
  induction l as [|x l IH]; intros acc k Hne Hga Hgl Hk Hex.
  { by apply Exists_nil in Hex. }
  inversion_clear Hgl as [|?? Hx Hgl']. simpl.
  destruct (decide (kind x = k)) as [Hxk|Hxk].
  - destruct (insort_same_kind x acc) as [r Hr]; [done..| |].
    { eapply Forall_impl; [exact Hk|]. simpl. congruence. }
    rewrite Hr. simpl. pose proof (insort_Permutation _ _ _ Hr) as Hp.
    apply (IH r k).
    + intros ->. by apply Permutation_nil_cons in Hp.
    + rewrite Hp. by constructor.
    + done.
    + rewrite Hp. by constructor.
    + apply Exists_cons in Hex as [Hex|Hex]; [done|exact Hex].
  - destruct acc as [|y acc]; [done|].
    inversion_clear Hga. inversion_clear Hk.
    rewrite insort_other_kind; [done..|congruence].
Qed.

Lemma sorted_two_kinds l x y :
  Forall good l → x ∈ l → y ∈ l → kind x ≠ kind y →
  Py.sorted lt l = Raise TypeError.
Proof.
  intros Hg Hx Hy Hxy. destruct l as [|z l]; [by apply elem_of_nil in Hx|].
  inversion_clear Hg as [|?? Hz Hg'].
  unfold Py.sorted. simpl.
  apply (sorted_from_two_kinds l [z] (kind z)); [done|by repeat constructor|done|by repeat constructor|].
  apply Exists_exists.
  apply elem_of_cons in Hx as [->|Hx]; apply elem_of_cons in Hy as [->|Hy].
  - done.
  - exists y. split; [done|congruence].
  - exists x. split; [done|congruence].
  - destruct (decide (kind x = kind z)); [exists y|exists x]; split; try done.
    congruence.
Qed.
End sorting.

Lemma sorted_by_decorated {A K} (key : A → result K) (l : list A) d :
  for_each (λ x, k ← key x; Ok (k, x)) l = Ok d → d.*2 = l.
Proof.
  revert d. induction l as [|x l IH]; intros d Hd; simpl in Hd.
  - by injection Hd as <-.
  - inv_bind Hd. injection Hd as <-. inv_bind Ha. injection Ha as <-.
    rewrite fmap_cons. f_equal. by apply IH.
Qed.

Lemma sorted_by_Permutation {A K} (key : A → result K) lt (l r : list A) :
  Py.sorted_by key lt l = Ok r → r ≡ₚ l.
Proof.
  unfold Py.sorted_by. intros Hr. inv_bind Hr. injection Hr as <-.
  apply sorted_Permutation in Ha0. rewrite Ha0.
  by rewrite (sorted_by_decorated _ _ _ Ha).
Qed.

(** ** The section counts *)

Section counts.
Context `{Unicode}.


Lemma dict_incr_keys k d :
  (dict_incr k d).*1 = if bool_decide (k ∈ d.*1) then d.*1 else d.*1 ++ [k].
Proof.
  induction d as [|[k' n] d IH].
  - rewrite bool_decide_false; [done|]. apply not_elem_of_nil.
  - cbn [dict_incr]. rewrite !fmap_cons. cbn [fst].
    destruct (decide (k' = k)) as [->|Hk].
    + rewrite (bool_decide_true (k = k)) by done.
      rewrite bool_decide_true; [done|]. left.
    + rewrite (bool_decide_false (k' = k)) by done.
      rewrite fmap_cons, IH. cbn [fst].
      destruct (decide (k ∈ d.*1)) as [Hin|Hin].
      * rewrite !bool_decide_true; [done| |done]. by right.
      * rewrite !bool_decide_false; [done| |done].
        intros [->|?]%elem_of_cons; done.
Qed.

Lemma dict_incr_NoDup k d : NoDup d.*1 → NoDup (dict_incr k d).*1.
Proof.
  intros Hd. rewrite dict_incr_keys. case_bool_decide as Hin; [done|].
  apply NoDup_app. split; [done|]. split; [|apply NoDup_singleton].
  intros x Hx ->%list_elem_of_singleton. done.
Qed.

Lemma dict_incr_elem k k' d :
  k' ∈ (dict_incr k d).*1 ↔ k' = k ∨ k' ∈ d.*1.
Proof.
  rewrite dict_incr_keys. case_bool_decide as Hin.
  - split; [by right|]. by intros [->|?].
  - rewrite elem_of_app, list_elem_of_singleton. tauto.
Qed.


Lemma counts_fold_keys section_id questions d :
  NoDup d.*1 →
  let d' := foldl (λ d q, dict_incr (section_of section_id q) d) d questions in
  NoDup d'.*1
  ∧ ∀ k, k ∈ d'.*1 ↔ k ∈ d.*1 ∨ k ∈ section_of section_id <$> questions.
Proof.
  revert d. induction questions as [|q qs IH]; intros d Hd; simpl.
  - split; [done|]. intros k. rewrite elem_of_nil. tauto.
  - destruct (IH (dict_incr (section_of section_id q) d)) as [Hnd Hk].
    { by apply dict_incr_NoDup. }
    split; [done|]. intros k. rewrite Hk, dict_incr_elem, elem_of_cons. tauto.
Qed.


Lemma section_counts_keys questions section_id :
  NoDup (section_counts questions section_id).*1
  ∧ ∀ k, k ∈ (section_counts questions section_id).*1
         ↔ k ∈ section_of section_id <$> questions.
Proof.
  destruct (counts_fold_keys section_id questions []) as [Hnd Hk].
  { constructor. }
  split; [done|]. intros k. unfold section_counts. rewrite Hk.
  simpl. rewrite elem_of_nil. tauto.
Qed.

End counts.



(** ** The natural sort key *)

Section natural_key.
Context `{Unicode}.

Let dec (c : N) : Prop := is_Some (decimal_char c).

Lemma findall_digits_go_runs s : ∀ run,
  Forall dec run →
  Forall (λ p, p ≠ [] ∧ Forall dec p) (Py.findall_digits_go run s).
Proof.
  induction s as [|c s IH]; intros run Hrun; simpl.
  - destruct run as [|d run]; [constructor|].
    repeat constructor.
    + intros Hnil. apply (f_equal length) in Hnil.
      rewrite length_reverse in Hnil. done.
    + by apply Forall_reverse.
  - case_bool_decide as Hc.
    + apply IH. by constructor.
    + destruct run as [|d run]; [apply IH; constructor|].
      constructor; [|apply IH; constructor]. split.
      * intros Hnil. apply (f_equal length) in Hnil.
        rewrite length_reverse in Hnil. done.
      * by apply Forall_reverse.
Qed.

Lemma int_digits_decimal s : ∀ acc,
  Forall dec s →
  Py.int_digits acc s
  = Ok (foldl (λ acc c, 10 * acc + default 0 (decimal_char c)) acc s).
Proof.
  induction s as [|c s IH]; intros acc Hs; simpl; [done|].
  inversion_clear Hs as [|?? [d Hd] Hs']. rewrite Hd. simpl. by apply IH.
Qed.

Lemma int_decimal s :
  s ≠ [] → (length s ≤ Py.max_str_digits)%nat → Forall dec s →
  Py.int s = Ok (digits_value s).
Proof.
  intros Hne Hlen Hs. unfold Py.int. destruct s as [|c s]; [done|].
  destruct (Nat.ltb_spec Py.max_str_digits (length (c :: s))); [lia|].
  by apply int_digits_decimal.
Qed.

Lemma int_long s :
  (Py.max_str_digits < length s)%nat → Py.int s = Raise ValueError.
Proof.
  intros Hlen. unfold Py.int. destruct s as [|c s]; [done|].
  by destruct (Nat.ltb_spec Py.max_str_digits (length (c :: s))); [|lia].
Qed.

(** The key function raises nothing on a tag whose groups of digits [int]
    accepts, and ValueError on any other. *)
Lemma natural_sort_key_total item :
  key_computable item.1 = true → natural_sort_key item = Ok (key_of item).
Proof.
  unfold key_computable, has_numeric_key, natural_sort_key, key_of.
  case_bool_decide; [|done]. simpl. intros Hshort.
  rewrite (for_each_total _ digits_value); [done|].
  intros p Hp.
  pose proof (findall_digits_go_runs item.1 [] (Forall_nil_2 _)) as Hruns.
  rewrite Forall_forall in Hruns. destruct (Hruns p Hp).
  apply int_decimal; [done| |done].
  rewrite forallb_forall in Hshort. apply Nat.leb_le, Hshort.
  by apply list_elem_of_In.
Qed.

Lemma for_each_int_long (parts : list str) :
  Forall (λ p, p ≠ [] ∧ Forall dec p) parts →
  forallb (λ p, (length p <=? Py.max_str_digits)%nat) parts = false →
  for_each Py.int parts = Raise ValueError.
Proof.
  induction 1 as [|p parts [Hne Hp] Hparts IH]; simpl; [done|].
  destruct (Nat.leb_spec (length p) Py.max_str_digits) as [Hlen|Hlen]; simpl.
  - intros Hrest. by rewrite int_decimal, IH.
  - intros _. by rewrite int_long.
Qed.

Lemma natural_sort_key_long item :
  key_computable item.1 = false → natural_sort_key item = Raise ValueError.
Proof.
  unfold key_computable, has_numeric_key, natural_sort_key.
  case_bool_decide; [|done]. simpl. intros Hlong.
  rewrite for_each_int_long; [done| |done].
  apply (findall_digits_go_runs item.1 []). constructor.
Qed.

Lemma key_of_kind item :
  key_kind (key_of item) = Some (has_numeric_key item.1).
Proof.
  unfold key_of, has_numeric_key. case_bool_decide as Hlen; [|done].
  destruct (Py.findall_digits item.1); [simpl in Hlen; lia|done].
Qed.

Lemma tuple_lt_same a b :
  is_Some (key_kind a) → is_Some (key_kind b) → key_kind a = key_kind b →
  ∃ c, tuple_lt a b = Ok c.
Proof. destruct a as [[|??]|?], b as [[|??]|?]; simpl; by eauto. Qed.

Lemma tuple_lt_diff a b :
  is_Some (key_kind a) → is_Some (key_kind b) → key_kind a ≠ key_kind b →
  tuple_lt a b = Raise TypeError.
Proof.
  destruct a as [[|??]|?], b as [[|??]|?]; simpl; try done;
    by intros [? [=]] || by intros _ [? [=]].
Qed.

Lemma sorted_by_keys (l : list (str * nat)) :
  Forall (λ x, key_computable x.1 = true) l →
  for_each (λ x, k ← natural_sort_key x; Ok (k, x)) l
  = Ok ((λ x, (key_of x, x)) <$> l).
Proof.
  intros Hl. apply for_each_total. intros x Hx.
  rewrite Forall_forall in Hl. by rewrite natural_sort_key_total by auto.
Qed.

(** The keys are computed before any two of them are compared: one tag
    with too long a group of digits makes the sort raise ValueError. *)
Lemma sorted_by_long (l : list (str * nat)) :
  Exists (λ x, key_computable x.1 = false) l →
  Py.sorted_by natural_sort_key tuple_lt l = Raise ValueError.
Proof.
  intros Hl. unfold Py.sorted_by.
  assert (for_each (λ x, k ← natural_sort_key x; Ok (k, x)) l
          = Raise ValueError) as ->; [|done].
  induction Hl as [x l Hx|x l Hl IH]; simpl.
  - by rewrite natural_sort_key_long.
  - destruct (key_computable x.1) eqn:Hx.
    + rewrite natural_sort_key_total by done. simpl. by rewrite IH.
    + by rewrite natural_sort_key_long.
Qed.
End natural_key.

Section computable_keys.
Context `{Unicode}.

Lemma counts_computable questions section_id :
  keys_computable section_id questions = true
  ↔ Forall (λ x, key_computable x.1 = true)
      (section_counts questions section_id).
Proof.
  destruct (section_counts_keys questions section_id) as [_ Hkeys].
  unfold keys_computable. rewrite forallb_forall, !Forall_forall. split.
  - intros Hq x Hx.
    assert (x.1 ∈ section_of section_id <$> questions) as Hin.
    { apply Hkeys, list_elem_of_fmap. eauto. }
    apply list_elem_of_fmap in Hin as (q & -> & Hin).
    by apply Hq, list_elem_of_In.
  - intros Hc q Hq%list_elem_of_In.
    assert (section_of section_id q ∈ (section_counts questions section_id).*1)
      as (x & -> & Hx)%list_elem_of_fmap
      by (apply Hkeys, list_elem_of_fmap; eauto).
    by apply Hc.
Qed.

Lemma counts_not_computable questions section_id :
  keys_computable section_id questions = false →
  Py.sorted_by natural_sort_key tuple_lt (section_counts questions section_id)
  = Raise ValueError.
Proof.
  intros Hk. apply sorted_by_long.
  destruct (decide (Forall (λ x, key_computable x.1 = true)
                      (section_counts questions section_id))) as [Hc|Hc].
  - apply counts_computable in Hc. congruence.
  - apply not_Forall_Exists in Hc; [|apply _].
    eapply Exists_impl; [exact Hc|]. intros x Hx. simpl in Hx.
    by destruct (key_computable x.1).
Qed.
End computable_keys.

Section mixed_keys.
Context `{Unicode}.

Lemma sorted_mixed_items (counts : list (str * nat)) x y :
  Forall (λ x, key_computable x.1 = true) counts →
  x ∈ counts → y ∈ counts →
  has_numeric_key x.1 = true → has_numeric_key y.1 = false →
  Py.sorted_by natural_sort_key tuple_lt counts = Raise TypeError.
Proof.
  intros Hc Hx Hy Hkx Hky. unfold Py.sorted_by.
  rewrite sorted_by_keys by done. simpl.
  assert (Py.sorted (λ a b : sort_key * (str * nat), tuple_lt a.1 b.1)
            ((λ x, (key_of x, x)) <$> counts) = Raise TypeError) as ->; [|done].
  apply (sorted_two_kinds _
           (λ a, bool_decide (key_kind a.1 = Some true))
           (λ a, is_Some (key_kind a.1))) with (key_of x, x) (key_of y, y).
  - intros a b Ha Hb Hab. apply tuple_lt_same; [done..|].
    destruct Ha as [[] Ha], Hb as [[] Hb]; rewrite Ha, Hb in *; done.
  - intros a b Ha Hb Hab. apply tuple_lt_diff; [done..|].
    intros Heq. by rewrite Heq in Hab.
  - apply Forall_fmap, Forall_forall. intros z _. simpl.
    rewrite key_of_kind. eauto.
  - apply list_elem_of_fmap. eauto.
  - apply list_elem_of_fmap. eauto.
  - simpl. rewrite !key_of_kind, Hkx, Hky. done.
Qed.
End mixed_keys.

(** C1. When one source tag holds at least two groups of digits and another
    does not, sorting the Track Details rows compares a tuple of integers with
    a tuple holding a string: the comparison raises TypeError, and neither the
    Debug table nor the workbook is produced.  The keys are computed before
    they are compared, so where a tag has a group of more digits than [int]
    accepts the build stops earlier still, with the ValueError of [int]. *)
Theorem mixed_tags_raise_TypeError `{Unicode} (questions : list Question)
    (section_id : str) (q1 q2 : Question) :
  q1 ∈ questions → q2 ∈ questions →
  has_numeric_key (section_of section_id q1) = true →
  has_numeric_key (section_of section_id q2) = false →
  let e :=
    if keys_computable section_id questions then TypeError else ValueError in
  debug_rows questions section_id = Raise e
  ∧ create_xlsx_output questions section_id = Raise e.
Proof.
  intros Hq1 Hq2 Hk1 Hk2 e.
  assert (debug_rows questions section_id = Raise e) as Hd.
  { unfold debug_rows, e.
    destruct (keys_computable section_id questions) eqn:Hc.
    - destruct (section_counts_keys questions section_id) as [_ Hkeys].
      assert (section_of section_id q1
                ∈ (section_counts questions section_id).*1)
        as (x & Hx1 & Hx)%list_elem_of_fmap
        by (apply Hkeys, list_elem_of_fmap; eauto).
      assert (section_of section_id q2
                ∈ (section_counts questions section_id).*1)
        as (y & Hy1 & Hy)%list_elem_of_fmap
        by (apply Hkeys, list_elem_of_fmap; eauto).
      rewrite (sorted_mixed_items _ x y);
        [done|by apply counts_computable|done..| |]; congruence.
    - by rewrite counts_not_computable. }
  split; [done|]. unfold create_xlsx_output. by rewrite Hd.
Qed.

Lemma mixed_tags_raise_TypeError_witness :
  let q1 := make_question (lit "Q1") [lit "a"] [0] (lit "1.2") in
  let q2 := make_question (lit "Q2") [lit "b"] [0] (lit "Intro") in
  debug_rows [q1; q2] (lit "S") = Raise TypeError
  ∧ create_xlsx_output [q1; q2] (lit "S") = Raise TypeError.
Proof.
  intros q1 q2.
  refine (mixed_tags_raise_TypeError [q1; q2] (lit "S") q1 q2 _ _ _ _).
  - apply list_elem_of_here.
  - apply list_elem_of_further, list_elem_of_here.
  - vm_compute. reflexivity.
  - vm_compute. reflexivity.
Defined.

(** ** The parser *)

Section parser_facts.
Context `{Unicode}.

Lemma parse_row_Some r q :
  parse_row r = Ok (Some q) →
  ∃ ca,
    value_strip (get_or_empty r "Correct Answer") = Ok ca
    ∧ choices q = extract_choices r
    ∧ resolve (infer_type (choices q)) (choices q) ca
      = Ok (type q, correct_indices q).
Proof.
  unfold parse_row. intros Hq.
  destruct (negb (truthy (r !! "Question"%string))); [done|].
  apply bind_Ok in Hq as (text & _ & Hq).
  destruct (negb (truthy (Some (PyStr text)))); [done|].
  apply bind_Ok in Hq as (expl & _ & Hq).
  apply bind_Ok in Hq as (src & _ & Hq).
  apply bind_Ok in Hq as (ca & Hca & Hq).
  apply bind_Ok in Hq as ([t idx] & Hres & Hq).
  injection Hq as <-. simpl. eauto.
Qed.

Lemma infer_type_TF choices : infer_type choices = TF ↔ true_false choices.
Proof.
  unfold infer_type, contains, true_false. split.
  - destruct (bool_decide (length choices = 2%nat)) eqn:Hlen; [|done].
    apply bool_decide_eq_true in Hlen.
    destruct choices as [|a [|b [|??]]]; try done. clear Hlen.
    do 2 case_bool_decide; try done. intros _.
    repeat match goal with
           | Hin : _ ∈ _ :: _ |- _ => apply elem_of_cons in Hin as [Hin|Hin]
           | Hin : _ ∈ [] |- _ => by apply elem_of_nil in Hin
           end; subst; try done; auto.
  - intros [->| ->]; reflexivity.
Qed.

Lemma text_match_length correct_answer choices : ∀ i,
  (length (text_match correct_answer i choices) ≤ 1)%nat.
Proof.
  induction choices as [|c cs IH]; intros i; simpl; [lia|].
  case_bool_decide; [simpl; lia|apply IH].
Qed.

Lemma resolve_type t choices ca t' indices :
  resolve t choices ca = Ok (t', indices) →
  t' = if contains_char comma ca then MA else t.
Proof.
  unfold resolve. intros Hr.
  repeat match type of Hr with
         | (if ?b then _ else _) = _ => destruct b
         end; inv_bind Hr; by injection Hr as <- _.
Qed.

Lemma resolve_single t choices ca t' indices :
  contains_char comma ca = false →
  resolve t choices ca = Ok (t', indices) →
  (length indices ≤ 1)%nat.
Proof.
  unfold resolve. intros -> Hr.
  repeat match type of Hr with
         | (if ?b then _ else _) = _ => destruct b
         end; inv_bind Hr; injection Hr as _ <-; simpl; try lia.
  apply text_match_length.
Qed.

Lemma resolve_multi t choices ca t' indices :
  contains_char comma ca = true →
  resolve t choices ca = Ok (t', indices) →
  multi_indices (Py.split comma ca) = Ok indices.
Proof.
  unfold resolve. intros -> Hr. inv_bind Hr. by injection Hr as _ <-.
Qed.

(** The loop appends, in token order, what each token yields. *)
Lemma multi_indices_tokens tokens indices :
  multi_indices tokens = Ok indices
  ↔ ∃ results, for_each token_index tokens = Ok results
               ∧ indices = omap id results.
Proof.
  revert indices. induction tokens as [|x rest IH]; intros indices; simpl.
  - split.
    + intros [= <-]. by exists [].
    + by intros (? & [= <-] & ->).
  - rewrite bind_Ok. split.
    + intros (i & Hi & Hrest). inv_bind Hrest. injection Hrest as <-.
      apply IH in Ha as (results & Hres & ->).
      exists (i :: results). rewrite Hi, Hres. by destruct i.
    + intros (results & Hres & ->). inv_bind Hres. injection Hres as <-.
      exists a. split; [done|].
      rewrite (proj2 (IH (omap id a0))) by eauto. by destruct a.
Qed.
End parser_facts.

(** C2, as the code has it.  A comma in the correct-answer field makes the
    question MA whatever its choices are; without a comma the type is TF
    exactly when the extracted choices are "True" and "False" in either
    order, and MC otherwise. *)
Theorem type_inference `{Unicode} (r : row) (q : Question) (ca : str) :
  parse_row r = Ok (Some q) →
  value_strip (get_or_empty r "Correct Answer") = Ok ca →
  choices q = extract_choices r
  ∧ type q = (if contains_char comma ca then MA
              else if bool_decide (true_false (choices q)) then TF
              else MC).
Proof.
  intros (ca' & Hca' & Hchoices & Hres)%parse_row_Some Hca.
  assert (ca' = ca) as -> by congruence.
  split; [done|]. rewrite (resolve_type _ _ _ _ _ Hres).
  destruct (contains_char comma ca); [done|].
  case_bool_decide as Htf.
  - by apply infer_type_TF.
  - unfold infer_type. destruct (infer_type (choices q)) eqn:Hi; try done.
    + by apply infer_type_TF in Hi.
    + unfold infer_type in Hi. by destruct (_ && _).
Qed.

Lemma type_inference_witness :
  ∃ q, parse_row (four_choices (lit "1, 3")) = Ok (Some q)
       ∧ choices q = extract_choices (four_choices (lit "1, 3"))
       ∧ type q = MA.
Proof.
  eexists. split; [vm_compute; reflexivity|].
  apply (type_inference (four_choices (lit "1, 3")) _ (lit "1, 3"));
    vm_compute; reflexivity.
Defined.

(** C2 as claimed fails: this record has exactly the two choices "True" and
    "False", and its type is MA, not TF. *)
Lemma true_false_with_comma_is_MA :
  ∃ q, parse_row true_false_comma_row = Ok (Some q)
       ∧ true_false (choices q)
       ∧ type q = MA ∧ type q ≠ TF.
Proof.
  eexists. split; [vm_compute; reflexivity|].
  split; [by left|]. by split.
Qed.

(** C3, as the code has it.  [correct_indices] is a list.  Without a comma
    in the correct-answer field it holds at most one index; with a comma it
    holds, in token order, one entry for every token that resolves, without
    removing repeated indices. *)
Theorem correct_indices_shape `{Unicode} (r : row) (q : Question) (ca : str) :
  parse_row r = Ok (Some q) →
  value_strip (get_or_empty r "Correct Answer") = Ok ca →
  if contains_char comma ca
  then ∃ results,
         for_each token_index (Py.split comma ca) = Ok results
         ∧ length results = length (Py.split comma ca)
         ∧ correct_indices q = omap id results
  else (length (correct_indices q) ≤ 1)%nat ∧ NoDup (correct_indices q).
Proof.
  intros (ca' & Hca' & Hchoices & Hres)%parse_row_Some Hca.
  assert (ca' = ca) as -> by congruence.
  destruct (contains_char comma ca) eqn:Hcomma.
  - apply resolve_multi in Hres; [|done].
    apply multi_indices_tokens in Hres as (results & Hres & ->).
    exists results. split; [done|]. split; [|done].
    by apply for_each_Ok_length in Hres.
  - apply resolve_single in Hres; [|done]. split; [done|].
    destruct (correct_indices q) as [|i [|j l]]; simpl in Hres; [| |lia].
    + constructor.
    + apply NoDup_singleton.
Qed.

Lemma correct_indices_shape_witness :
  ∃ q, parse_row (four_choices (lit "1, A")) = Ok (Some q)
       ∧ ∃ results,
           for_each token_index (Py.split comma (lit "1, A")) = Ok results
           ∧ length results = length (Py.split comma (lit "1, A"))
           ∧ correct_indices q = omap id results.
Proof.
  eexists. split; [vm_compute; reflexivity|].
  apply (correct_indices_shape (four_choices (lit "1, A")) _ (lit "1, A"));
    vm_compute; reflexivity.
Defined.

(** C3 as claimed fails: the tokens of "1, A" both resolve to index 0 and
    the list holds it twice. *)
Lemma duplicate_correct_index :
  ∃ q, parse_row (four_choices (lit "1, A")) = Ok (Some q)
       ∧ correct_indices q = [0; 0]
       ∧ ¬ NoDup (correct_indices q).
Proof.
  eexists. split; [vm_compute; reflexivity|]. split; [done|].
  simpl. intros Hnd. apply NoDup_cons in Hnd as [Hin _].
  apply Hin. left.
Qed.

(** ** The multi-answer rule against its specification *)

Section multi_answer.
Context `{Unicode}.

Lemma token_index_spec token :
  decimal_if_digit token → token_index token = Ok (spec_token_index token).
Proof.
  unfold decimal_if_digit, token_index, spec_token_index. intros Hdec.
  destruct (Py.isdigit (upper (Py.strip token))) eqn:Hdigit.
  - destruct (Hdec eq_refl) as [Hall Hlen].
    rewrite int_decimal; [done| |done..].
    intros Hnil. by rewrite Hnil in Hdigit.
  - destruct (bool_decide (length (upper (Py.strip token)) = 1%nat)) eqn:Hlen;
      [|done].
    apply bool_decide_eq_true in Hlen.
    destruct (upper (Py.strip token)) as [|c [|??]]; try done. simpl.
    by destruct (Py.isalpha [c]).
Qed.

Lemma token_index_raises token :
  Py.isdigit (upper (Py.strip token)) = true →
  ¬ Forall (λ c, is_Some (decimal_char c)) (upper (Py.strip token)) →
  token_index token = Raise ValueError.
Proof.
  unfold token_index. intros -> Hnot.
  assert (∀ s acc, ¬ Forall (λ c, is_Some (decimal_char c)) s →
                   Py.int_digits acc s = Raise ValueError) as Hint.
  { induction s as [|c s IH]; intros acc Hs; simpl.
    - destruct Hs. constructor.
    - destruct (decimal_char c) as [d|] eqn:Hc; [|done].
      apply IH. intros Hs'. apply Hs. constructor; [by eexists|done]. }
  unfold Py.int. destruct (upper (Py.strip token)) as [|c s]; [done|].
  destruct (_ <? _)%nat; [done|]. by rewrite Hint.
Qed.

(** Where every all-digit token is decimal, the loop computes the index
    list of the specification. *)
Lemma multi_indices_refines_spec tokens :
  Forall decimal_if_digit tokens →
  multi_indices tokens = Ok (omap spec_token_index tokens).
Proof.
  induction 1 as [|x rest Hx Hrest IH]; simpl; [done|].
  rewrite token_index_spec, IH by done. simpl.
  by destruct (spec_token_index x).
Qed.

Lemma resolve_multi_refines_spec t choices ca :
  contains_char comma ca = true →
  Forall decimal_if_digit (Py.split comma ca) →
  resolve t choices ca = Ok (MA, spec_multi_indices ca).
Proof.
  intros Hcomma Hdec. unfold resolve, spec_multi_indices.
  by rewrite Hcomma, multi_indices_refines_spec.
Qed.
End multi_answer.

(** The correct answer "1, 3" with four choices gives MA and the indices 0
    and 2. *)
Example multi_answer_1_3 :
  ∃ q, parse_row (four_choices (lit "1, 3")) = Ok (Some q)
       ∧ type q = MA ∧ correct_indices q = [0; 2]
       ∧ spec_multi_indices (lit "1, 3") = [0; 2].
Proof. eexists. split; [vm_compute; reflexivity|]. done. Qed.

(** C4.  The tokens of a comma-separated answer are tested with
    [str.isdigit] and parsed with [int].  The token U+00B2 passes the test
    and is no decimal digit: parsing the record raises ValueError, where the
    rule maps or skips every token without an error. *)
Theorem multi_answer_superscript_raises :
  let correct_answer := lit "1, " ++ [superscript_two] in
  contains_char comma correct_answer = true
  ∧ Py.isdigit (upper (Py.strip [superscript_two])) = true
  ∧ token_index [superscript_two] = Raise ValueError
  ∧ parse_row (four_choices correct_answer) = Raise ValueError.
Proof. vm_compute. done. Qed.

(** ** main *)

Section main_facts.
Context `{Unicode}.

Lemma main_no_questions stem reader :
  parse_csv_questions reader = Ok [] → main stem reader = Raise (SystemExit 1).
Proof. unfold main. by intros ->. Qed.

Lemma main_parse_raises stem reader e :
  parse_csv_questions reader = Raise e → main stem reader = Raise e.
Proof. unfold main. by intros ->. Qed.

Lemma main_Ok stem reader workbook :
  main stem reader = Ok workbook →
  ∃ q questions, parse_csv_questions reader = Ok (q :: questions).
Proof.
  unfold main. intros Hm. apply bind_Ok in Hm as (qs & Hqs & Hm).
  destruct qs as [|q qs]; [done|]. eauto.
Qed.
End main_facts.

(** C5.  A record whose correct answer is the single character U+00B2 makes
    the parser raise ValueError: [str.isdigit] accepts the character and
    [int] rejects it.  The run aborts on it although no record was found to
    lack a question. *)
Theorem superscript_answer_raises :
  let r := four_choices [superscript_two] in
  truthy (r !! "Question"%string) = true
  ∧ parse_row r = Raise ValueError
  ∧ parse_csv_questions [r] = Raise ValueError
  ∧ main (lit "quiz") [r] = Raise ValueError.
Proof. vm_compute. done. Qed.

(** ** Correct markers and correct letters *)

Section markers.
Context `{Unicode}.





Lemma chr_Ok n : 0 ≤ n < 0x110000 → Py.chr n = Ok [Z.to_N n].
Proof.
  intros Hn. unfold Py.chr.
  destruct (Z.ltb_spec n (-0x80000000)); [lia|].
  destruct (Z.ltb_spec 0x7FFFFFFF n); [lia|]. simpl.
  by rewrite (proj2 (Z.leb_le _ _)), (proj2 (Z.ltb_lt _ _)) by lia.
Qed.

Lemma chr_Raise idx :
  ¬ has_letter idx → Py.chr (65 + idx) = Raise (chr_exn idx).
Proof.
  unfold has_letter, Py.chr, chr_exn, c_int. intros Hidx.
  destruct (Z.ltb_spec (65 + idx) (-0x80000000)),
    (Z.ltb_spec 0x7FFFFFFF (65 + idx)); simpl;
    try (rewrite decide_False by lia; done).
  rewrite decide_True by lia.
  destruct (Z.leb_spec 0 (65 + idx)), (Z.ltb_spec (65 + idx) 0x110000);
    simpl; try done. lia.
Qed.

Lemma correct_letter_Ok q :
  Forall (λ idx, 0 ≤ 65 + idx < 0x110000) (correct_indices q) →
  ∃ letters,
    correct_letter q = Ok (Py.join (lit ", ") letters)
    ∧ letters ≡ₚ (λ idx, [letter_of idx]) <$> correct_indices q.
Proof.
  intros Hvalid. unfold correct_letter.
  destruct (correct_indices q) as [|i l] eqn:Hci; [by exists []|].
  rewrite <-Hci in *. clear Hci.
  rewrite (for_each_total _ (λ idx, [letter_of idx])).
  2:{ intros idx Hidx. rewrite Forall_forall in Hvalid.
      specialize (Hvalid idx Hidx). by apply chr_Ok. }
  simpl.
  destruct (Py.sorted (λ a b : str, Ok (Py.str_lt a b))
              ((λ idx, [letter_of idx]) <$> correct_indices q))
    as [ordered|e] eqn:Hsorted.
  - exists ordered. split; [done|]. by apply sorted_Permutation in Hsorted.
  - exfalso. revert Hsorted. unfold Py.sorted. generalize (@nil str).
    induction ((λ idx, [letter_of idx]) <$> correct_indices q) as [|x l' IH];
      intros acc; simpl; [done|].
    assert (∃ r, Py.insort (λ a b : str, Ok (Py.str_lt a b)) x acc = Ok r)
      as [r ->].
    { clear. induction acc as [|y acc [r IH]]; simpl; [eauto|].
      destruct (Py.str_lt x y); [eauto|]. rewrite IH. simpl. eauto. }
    simpl. apply IH.
Qed.
End markers.




(** ** The choice loop terminates *)

Section choice_loop.
Context `{Unicode}.

Lemma extract_choices_from_S fuel r i :
  extract_choices_from (S fuel) r i
  = match choice_at r i with
    | Some c => c :: extract_choices_from fuel r (S i)
    | None => []
    end.
Proof.
  simpl. unfold choice_at.
  destruct (r !! choice_key i) as [[|s]|]; [done| |done].
  by destruct (_ && _).
Qed.

Lemma choice_key_inj i j : choice_key i = choice_key j → i = j.
Proof.
  unfold choice_key. intros Heq.
  apply (inj (String.app "Choice ")) in Heq. by apply (inj pretty).
Qed.

Lemma choice_at_dom r i : is_Some (choice_at r i) → choice_key i ∈ dom r.
Proof.
  unfold choice_at. intros [c Hc]. apply elem_of_dom.
  destruct (r !! choice_key i); [by eexists|done].
Qed.

(** A row cannot hold more choice columns than it has columns. *)
Lemma choice_columns_bound r i n :
  (∀ j, (i ≤ j < i + n)%nat → is_Some (choice_at r j)) → (n ≤ size r)%nat.
Proof.
  intros Hall.
  rewrite <-(size_dom (D:=gset string)), <-(length_seq n i), <-(length_fmap choice_key).
  rewrite <-(size_list_to_set (C:=gset string)).
  - apply subseteq_size. intros k Hk.
    apply elem_of_list_to_set, list_elem_of_fmap in Hk as (j & -> & Hj).
    apply choice_at_dom, Hall. apply elem_of_seq in Hj. lia.
  - apply NoDup_fmap_2; [|apply NoDup_seq]. intros ??. apply choice_key_inj.
Qed.

Lemma first_gap r n : ∀ i,
  (∀ j, (i ≤ j < i + n)%nat → is_Some (choice_at r j))
  ∨ ∃ j, (i ≤ j < i + n)%nat ∧ choice_at r j = None.
Proof.
  induction n as [|n IH]; intros i; [left; lia|].
  destruct (choice_at r i) as [c|] eqn:Hc.
  - destruct (IH (S i)) as [Hall|(j & Hj & Hnone)].
    + left. intros j Hj. destruct (decide (j = i)) as [->|]; [by eexists|].
      apply Hall. lia.
    + right. exists j. split; [lia|done].
  - right. exists i. split; [lia|done].
Qed.

Lemma extract_choices_from_gap r fuel : ∀ i,
  (∃ j, (i ≤ j < i + fuel)%nat ∧ choice_at r j = None) →
  ∃ n, (n < fuel)%nat
       ∧ choice_at r (i + n) = None
       ∧ Forall2 (λ j c, choice_at r j = Some c) (seq i n)
                 (extract_choices_from fuel r i)
       ∧ ∀ fuel', (fuel ≤ fuel')%nat →
                  extract_choices_from fuel' r i = extract_choices_from fuel r i.
Proof.
  induction fuel as [|fuel IH]; intros i (j & Hj & Hnone); [lia|].
  destruct (choice_at r i) as [c|] eqn:Hc.
  - destruct (IH (S i)) as (n & Hn & Hgap & Hall & Hfuel).
    { exists j. split; [|done]. destruct (decide (j = i)) as [->|]; [congruence|lia]. }
    exists (S n). split; [lia|]. split.
    { by replace (i + S n)%nat with (S i + n)%nat by lia. }
    rewrite extract_choices_from_S, Hc. split.
    + simpl. by constructor.
    + intros [|fuel'] Hle; [lia|].
      rewrite extract_choices_from_S, Hc. f_equal. apply Hfuel. lia.
  - exists 0%nat. split; [lia|]. split.
    { by replace (i + 0)%nat with i by lia. }
    rewrite extract_choices_from_S, Hc. split; [constructor|].
    intros [|fuel'] Hle; [lia|]. by rewrite extract_choices_from_S, Hc.
Qed.

(** The loop reaches its [break] within the fuel it is given: the choices
    are those of the columns [Choice 1] to [Choice n], where [Choice (n+1)]
    is the first column that is missing or blank, and more fuel changes
    nothing. *)
Lemma extract_choices_breaks r :
  ∃ n, (n ≤ size r)%nat
       ∧ choice_at r (S n) = None
       ∧ Forall2 (λ j c, choice_at r j = Some c) (seq 1 n) (extract_choices r)
       ∧ ∀ fuel, (S (size r) ≤ fuel)%nat →
                 extract_choices_from fuel r 1 = extract_choices r.
Proof.
  destruct (first_gap r (S (size r)) 1) as [Hall|Hgap].
  { apply choice_columns_bound in Hall. lia. }
  destruct (extract_choices_from_gap r (S (size r)) 1 Hgap)
    as (n & Hn & Hnone & Hall & Hfuel).
  exists n. split; [lia|]. done.
Qed.
End choice_loop.


(** * Further properties of the parser *)

Section parser_rows.
Context `{Unicode}.

Lemma strip_nil : Py.strip [] = [].
Proof. reflexivity. Qed.

Lemma truthy_str s : truthy (Some (PyStr s)) = false ↔ s = [].
Proof. by destruct s. Qed.

Lemma value_strip_Ok r k :
  ¬ is_None r k → ∃ s, value_strip (get_or_empty r k) = Ok s.
Proof.
  unfold is_None, get_or_empty. intros Hk.
  destruct (r !! k) as [[|s]|]; simpl; [done|eauto..].
Qed.

Lemma value_strip_Raise r k :
  is_None r k → value_strip (get_or_empty r k) = Raise AttributeError.
Proof. unfold is_None, get_or_empty. by intros ->. Qed.

Lemma int_exn s e : Py.int s = Raise e → e = ValueError.
Proof.
  unfold Py.int. destruct s as [|c s]; [by intros [= <-]|].
  destruct (_ <? _)%nat; [by intros [= <-]|].
  generalize 0. generalize (c :: s). clear c s.
  induction l as [|d l IH]; intros acc; simpl; [done|].
  destruct (decimal_char d); [apply IH|by intros [= <-]].
Qed.

Lemma ord_exn s e : Py.ord s = Raise e → e = TypeError.
Proof. destruct s as [|c [|??]]; simpl; by intros [= <-]. Qed.

Lemma token_index_exn x e :
  token_index x = Raise e → e = ValueError ∨ e = TypeError.
Proof.
  unfold token_index. destruct (Py.isdigit _).
  - destruct (Py.int _) as [n|e'] eqn:Hint; simpl; [done|].
    intros [= <-]. left. by eapply int_exn.
  - destruct (_ && _); [|done].
    destruct (Py.ord (upper (Py.strip x))) as [c|e'] eqn:Hord; simpl; [done|].
    intros [= <-]. right. by eapply ord_exn.
Qed.

Lemma multi_indices_exn tokens e :
  multi_indices tokens = Raise e → e = ValueError ∨ e = TypeError.
Proof.
  induction tokens as [|x rest IH]; simpl; [done|].
  destruct (token_index x) as [i|e'] eqn:Hx; simpl.
  - destruct (multi_indices rest); simpl; [done|]. intros [= <-]. by apply IH.
  - intros [= <-]. by eapply token_index_exn.
Qed.

Lemma resolve_exn t choices ca e :
  resolve t choices ca = Raise e → e = ValueError ∨ e = TypeError.
Proof.
  unfold resolve.
  repeat match goal with
         | |- (if ?b then _ else _) = _ → _ => destruct b
         end; try done.
  - destruct (multi_indices _) as [l|e'] eqn:Hm; simpl; [done|].
    intros [= <-]. by eapply multi_indices_exn.
  - destruct (Py.int ca) as [n|e'] eqn:Hint; simpl; [done|].
    intros [= <-]. left. by eapply int_exn.
  - destruct (Py.ord (upper (Py.strip ca))) as [c|e'] eqn:Hord; simpl; [done|].
    intros [= <-]. right. by eapply ord_exn.
Qed.
End parser_rows.

Lemma parse_row_None `{Unicode} (r : row) :
  parse_row r = Ok None ↔ blank_question r.
Proof.
  unfold parse_row, blank_question, get_or_empty.
  destruct (r !! "Question"%string) as [[|[|c s]]|]; simpl; [done..| |done].
  destruct (Py.strip (c :: s)) as [|d u]; simpl; [done|].
  split; [|done]. intros Hq. inv_bind Hq. by destruct a2.
Qed.

(** X1.  A record is skipped exactly when it has no question: the column is
    missing, holds [None], or is empty once trimmed.  Such a record never
    raises, whatever its other columns hold. *)
Theorem blank_question_skipped `{Unicode} (r : row) :
  parse_row r = Ok None ↔ blank_question r.
Proof. apply parse_row_None. Qed.

(** X2.  When the parse succeeds, its questions are those of the records
    that are not skipped, in the order of the records. *)
Theorem parse_csv_questions_order `{Unicode} (reader : list row)
    (questions : list Question) :
  parse_csv_questions reader = Ok questions
  ↔ ∃ results,
      Forall2 (λ r o, parse_row r = Ok o) reader results
      ∧ questions = omap id results.
Proof.
  revert questions. induction reader as [|r reader IH]; intros questions; simpl.
  - split.
    + intros [= <-]. exists []. by split; [constructor|].
    + intros (results & Hall & ->). by inversion_clear Hall.
  - rewrite bind_Ok. split.
    + intros (o & Ho & Hrest). inv_bind Hrest. injection Hrest as <-.
      apply IH in Ha as (results & Hall & ->).
      exists (o :: results). split; [by constructor|]. by destruct o.
    + intros (results & Hall & ->).
      inversion_clear Hall as [|? o ? results' Ho Hall'].
      exists o. split; [done|].
      rewrite (proj2 (IH (omap id results'))) by eauto. by destruct o.
Qed.

(** X3.  The parse raises exactly when some record raises, and then with the
    exception of the first such record: the questions of the records before
    it are lost. *)
Theorem parse_csv_questions_first_error `{Unicode} (reader : list row)
    (e : exn) :
  parse_csv_questions reader = Raise e
  ↔ ∃ before r after,
      reader = before ++ r :: after
      ∧ Forall (λ r', raises (parse_row r') = false) before
      ∧ parse_row r = Raise e.
Proof.
  induction reader as [|r reader IH]; simpl.
  - split; [done|]. intros (before & ? & ? & Heq & _). by destruct before.
  - destruct (parse_row r) as [o|e'] eqn:Hr; simpl.
    + destruct (parse_csv_questions reader) as [qs|e''] eqn:Hrest; simpl.
      * split; [done|]. intros (before & r' & after & Heq & Hbefore & Hr').
        destruct before as [|b before]; simpl in Heq.
        -- injection Heq as <- _. congruence.
        -- injection Heq as <- ->. inversion_clear Hbefore.
           assert (Ok qs = Raise e) as Habs; [|done].
           apply IH. eauto 6.
      * split.
        -- intros [= ->]. destruct (proj1 IH eq_refl)
             as (before & r' & after & -> & Hbefore & Hr').
           exists (r :: before), r', after.
           split; [done|]. split; [|done]. constructor; [by rewrite Hr|done].
        -- intros (before & r' & after & Heq & Hbefore & Hr').
           destruct before as [|b before]; simpl in Heq.
           ++ injection Heq as <- _. congruence.
           ++ injection Heq as <- ->. inversion_clear Hbefore.
              apply IH. eauto 6.
    + split.
      * intros [= ->]. exists [], r, reader. by repeat split.
      * intros (before & r' & after & Heq & Hbefore & Hr').
        destruct before as [|b before]; simpl in Heq.
        -- injection Heq as <- _. congruence.
        -- injection Heq as <- _. inversion_clear Hbefore as [|?? Hb _].
           by rewrite Hr in Hb.
Qed.

(** X4.  A record with a question raises AttributeError exactly when one of
    the columns Explanation, Source and Correct Answer is present and holds
    [None], as in a row that is shorter than the header: [row.get(k, '')]
    returns the [None] and [strip] is called on it. *)
Theorem short_row_AttributeError `{Unicode} (r : row) :
  parse_row r = Raise AttributeError
  ↔ ¬ blank_question r
    ∧ (is_None r "Explanation" ∨ is_None r "Source"
       ∨ is_None r "Correct Answer").
Proof.
  unfold parse_row, blank_question, is_None, get_or_empty.
  destruct (r !! "Question"%string) as [[|[|c s]]|]; simpl;
    [naive_solver..| |naive_solver].
  destruct (Py.strip (c :: s)) as [|d u]; simpl; [naive_solver|].
  destruct (r !! "Explanation"%string) as [[|ex]|]; simpl; [naive_solver|..];
    (destruct (r !! "Source"%string) as [[|so]|]; simpl; [naive_solver|..]);
    (destruct (r !! "Correct Answer"%string) as [[|ca]|]; simpl;
       [naive_solver|..]);
    (split; [|naive_solver]);
    (match goal with
     | |- context [resolve ?t ?cs ?a] =>
         destruct (resolve t cs a) as [[??]|e] eqn:Hres; simpl; [done|];
         intros [= ->]; apply resolve_exn in Hres; naive_solver
     end).
Qed.

Lemma text_match_from `{Unicode} (correct_answer : str) (choices : list str) :
  ∀ k : nat,
  match text_match correct_answer (Z.of_nat k) choices with
  | [] => ∀ c, c ∈ choices → lower c ≠ lower correct_answer
  | [i] =>
      ∃ n c, i = Z.of_nat (k + n)
             ∧ choices !! n = Some c
             ∧ lower c = lower correct_answer
             ∧ ∀ m c', (m < n)%nat → choices !! m = Some c' →
                       lower c' ≠ lower correct_answer
  | _ => False
  end.
Proof.
  induction choices as [|choice rest IH]; intros k; simpl.
  - intros c Hc. by apply elem_of_nil in Hc.
  - case_bool_decide as Heq.
    + exists 0%nat, choice. repeat split; [f_equal; lia|done|lia].
    + specialize (IH (S k)).
      replace (Z.of_nat k + 1) with (Z.of_nat (S k)) by lia.
      destruct (text_match correct_answer (Z.of_nat (S k)) rest)
        as [|i [|??]]; [|idtac|done].
      * intros c [->|Hc]%elem_of_cons; [done|by apply IH].
      * destruct IH as (n & c & -> & Hn & Hc & Hfirst).
        exists (S n), c. repeat split; [f_equal; lia|done..|].
        intros [|m] c' Hm Hc'; simpl in Hc'.
        -- by injection Hc' as <-.
        -- apply (Hfirst m); [lia|done].
Qed.

(** X5.  The text-match fallback returns at most one index: the position of
    the first choice that equals the correct answer once both are lowercased,
    which is an index into the choices; it returns no index exactly when no
    choice matches. *)
Theorem text_match_first `{Unicode} (correct_answer : str)
    (choices : list str) :
  match text_match correct_answer 0 choices with
  | [] => ∀ c, c ∈ choices → lower c ≠ lower correct_answer
  | [i] =>
      ∃ n c, i = Z.of_nat n
             ∧ choices !! n = Some c
             ∧ lower c = lower correct_answer
             ∧ ∀ m c', (m < n)%nat → choices !! m = Some c' →
                       lower c' ≠ lower correct_answer
  | _ => False
  end.
Proof. apply (text_match_from correct_answer choices 0). Qed.

(** X6.  The choice loop stops at the first column [Choice n+1] that is
    missing, [None] or blank, within as many iterations as the row has
    columns: the choices are the trimmed, non-empty values of [Choice 1] to
    [Choice n] in that order, and columns behind the gap are ignored. *)
Theorem choices_stop_at_first_gap `{Unicode} (r : row) :
  ∃ n, (n ≤ size r)%nat
       ∧ length (extract_choices r) = n
       ∧ choice_at r (S n) = None
       ∧ ∀ i c, extract_choices r !! i = Some c →
                choice_at r (S i) = Some c ∧ c ≠ [].
Proof.
  destruct (extract_choices_breaks r) as (n & Hn & Hgap & Hall & _).
  exists n. split; [done|]. split.
  { apply Forall2_length in Hall. by rewrite length_seq in Hall. }
  split; [done|]. intros i c Hc.
  destruct (Forall2_lookup_r _ _ _ _ _ Hall Hc) as (j & Hj & Hat).
  apply lookup_seq in Hj as [-> _]. split; [done|].
  unfold choice_at in Hat. destruct (r !! choice_key (1 + i)) as [[|s]|]; try done.
  destruct (truthy (Some (PyStr s))); [|done]. simpl in Hat.
  destruct (Py.strip s) eqn:Hs; [done|]. by injection Hat as <-.
Qed.

(** * Further properties of the table builder *)

(** ** [sorted] on a strict order *)

Section sorting_order.
Context {A : Type} (lt : A → A → result bool) (ltb : A → A → bool).
Context (good : A → Prop).
Context (lt_ltb : ∀ a b, good a → good b → lt a b = Ok (ltb a b)).
Context (ltb_asym : ∀ a b, ltb a b = true → ltb b a = false).
Context (ltb_trans : ∀ a b c, ltb a b = true → ltb b c = true → ltb a c = true).

Lemma insort_sorted x acc :
  good x → Forall good acc →
  StronglySorted (λ a b, ltb b a = false) acc →
  ∃ r, Py.insort lt x acc = Ok r
       ∧ StronglySorted (λ a b, ltb b a = false) r
       ∧ r ≡ₚ x :: acc.
Proof.
  intros Hx. induction acc as [|y acc IH]; intros Hg Hs; simpl.
  - exists [x]. repeat split; [|done]. repeat constructor.
  - inversion_clear Hg as [|?? Hy Hg']. inversion_clear Hs as [|?? Hs' Hle].
    rewrite lt_ltb by done. simpl. destruct (ltb x y) eqn:Hxy.
    + exists (x :: y :: acc). split; [done|]. split; [|done].
      constructor; [by constructor|]. constructor; [by apply ltb_asym|].
      rewrite Forall_forall in Hle |- *. intros z Hz.
      destruct (ltb z x) eqn:Hzx; [|done].
      rewrite <-(Hle z Hz). symmetry. by apply (ltb_trans z x y).
    + destruct (IH Hg' Hs') as (r & -> & Hr & Hp). simpl.
      exists (y :: r). split; [done|]. split.
      * constructor; [done|]. rewrite Forall_forall in Hle |- *.
        intros z Hz. apply (elem_of_Permutation_proper _ _ _ Hp) in Hz.
        apply elem_of_cons in Hz as [->|Hz]; [done|by apply Hle].
      * etrans; [apply Permutation_skip, Hp|apply perm_swap].
Qed.

Lemma sorted_from_sorted l : ∀ acc,
  Forall good acc → Forall good l →
  StronglySorted (λ a b, ltb b a = false) acc →
  ∃ r, Py.sorted_from lt acc l = Ok r
       ∧ StronglySorted (λ a b, ltb b a = false) r
       ∧ r ≡ₚ acc ++ l.
Proof.
  induction l as [|x l IH]; intros acc Hga Hgl Hs; simpl.
  - exists acc. by rewrite app_nil_r.
  - inversion_clear Hgl as [|?? Hx Hgl'].
    destruct (insort_sorted x acc Hx Hga Hs) as (r & -> & Hr & Hp). simpl.
    destruct (IH r) as (r' & -> & Hr' & Hp'); [|done..|].
    { rewrite Forall_forall in Hga |- *. intros z Hz.
      apply (elem_of_Permutation_proper _ _ _ Hp) in Hz.
      apply elem_of_cons in Hz as [->|Hz]; [done|by apply Hga]. }
    exists r'. split; [done|]. split; [done|].
    etrans; [exact Hp'|]. etrans; [by apply Permutation_app_tail|].
    simpl. apply Permutation_middle.
Qed.

Lemma sorted_sorted l :
  Forall good l →
  ∃ r, Py.sorted lt l = Ok r
       ∧ StronglySorted (λ a b, ltb b a = false) r
       ∧ r ≡ₚ l.
Proof.
  intros Hg. apply (sorted_from_sorted l []); [constructor|done|constructor].
Qed.
End sorting_order.

Lemma ints_lt_asym a : ∀ b, Py.ints_lt a b = true → Py.ints_lt b a = false.
Proof.
  induction a as [|x a IH]; intros [|y b]; simpl; try done.
  destruct (Z.ltb_spec x y), (Z.eqb_spec x y), (Z.ltb_spec y x),
    (Z.eqb_spec y x); simpl; try lia; try done.
  apply IH.
Qed.

Lemma ints_lt_trans a : ∀ b c,
  Py.ints_lt a b = true → Py.ints_lt b c = true → Py.ints_lt a c = true.
Proof.
  induction a as [|x a IH]; intros [|y b] [|z c]; simpl; try done.
  destruct (Z.ltb_spec x y), (Z.eqb_spec x y), (Z.ltb_spec y z),
    (Z.eqb_spec y z), (Z.ltb_spec x z), (Z.eqb_spec x z);
    simpl; try lia; try done.
  apply IH.
Qed.

Lemma str_lt_asym a : ∀ b, Py.str_lt a b = true → Py.str_lt b a = false.
Proof.
  induction a as [|x a IH]; intros [|y b]; simpl; try done.
  destruct (N.ltb_spec x y), (N.eqb_spec x y), (N.ltb_spec y x),
    (N.eqb_spec y x); simpl; try lia; try done.
  apply IH.
Qed.

Lemma str_lt_trans a : ∀ b c,
  Py.str_lt a b = true → Py.str_lt b c = true → Py.str_lt a c = true.
Proof.
  induction a as [|x a IH]; intros [|y b] [|z c]; simpl; try done.
  destruct (N.ltb_spec x y), (N.eqb_spec x y), (N.ltb_spec y z),
    (N.eqb_spec y z), (N.ltb_spec x z), (N.eqb_spec x z);
    simpl; try lia; try done.
  apply IH.
Qed.

Lemma key_ltb_asym a b : key_ltb a b = true → key_ltb b a = false.
Proof.
  destruct a, b; simpl; try done; [apply ints_lt_asym|apply str_lt_asym].
Qed.

Lemma key_ltb_trans a b c :
  key_ltb a b = true → key_ltb b c = true → key_ltb a c = true.
Proof.
  destruct a, b, c; simpl; try done; [apply ints_lt_trans|apply str_lt_trans].
Qed.

Lemma tuple_lt_key_ltb k a b :
  key_kind a = Some k → key_kind b = Some k → tuple_lt a b = Ok (key_ltb a b).
Proof.
  destruct a as [[|??]|?], b as [[|??]|?]; simpl; try done; congruence.
Qed.

(** ** The order of the Track Details rows *)

Section track_order.
Context `{Unicode}.

Lemma decorate_snd (l : list (str * nat)) :
  ((λ x, (key_of x, x)) <$> l).*2 = l.
Proof. induction l as [|x l IH]; [done|]. rewrite !fmap_cons. by f_equal. Qed.

Lemma sorted_undecorate (r : list (sort_key * (str * nat))) k :
  Forall (λ p, key_kind p.1 = Some k ∧ p.1 = key_of p.2) r →
  StronglySorted (λ a b, key_ltb b.1 a.1 = false) r →
  StronglySorted (λ a b, tuple_lt (key_of b) (key_of a) = Ok false) r.*2.
Proof.
  intros Hg Hs. induction Hs as [|p r Hs IH Hle]; [constructor|].
  inversion_clear Hg as [|?? [Hk Hp] Hg']. rewrite fmap_cons.
  constructor; [by apply IH|]. apply Forall_fmap, Forall_forall.
  intros p' Hp'. simpl. rewrite Forall_forall in Hle, Hg'.
  destruct (Hg' p' Hp') as [Hk' Hp''].
  rewrite <-Hp, <-Hp'', (tuple_lt_key_ltb k) by done. f_equal. by apply Hle.
Qed.

Lemma counts_of_kind k section_id questions :
  tags_of_kind k section_id questions →
  Forall (λ x, has_numeric_key x.1 = k) (section_counts questions section_id).
Proof.
  unfold tags_of_kind. intros Hk. apply Forall_forall. intros x Hx.
  destruct (section_counts_keys questions section_id) as [_ Hkeys].
  assert (x.1 ∈ section_of section_id <$> questions) as Hin.
  { apply Hkeys, list_elem_of_fmap. eauto. }
  apply list_elem_of_fmap in Hin as (q & -> & Hq).
  rewrite Forall_forall in Hk. by apply Hk.
Qed.

(** Tags of one kind whose keys can be computed sort without an exception,
    into ascending keys. *)
Lemma sorted_by_same_kind k (counts : list (str * nat)) :
  Forall (λ x, key_computable x.1 = true) counts →
  Forall (λ x, has_numeric_key x.1 = k) counts →
  ∃ items,
    Py.sorted_by natural_sort_key tuple_lt counts = Ok items
    ∧ items ≡ₚ counts
    ∧ StronglySorted (λ a b, tuple_lt (key_of b) (key_of a) = Ok false) items.
Proof.
  intros Hc Hk. unfold Py.sorted_by. rewrite sorted_by_keys by done. simpl.
  destruct (sorted_sorted
              (λ a b : sort_key * (str * nat), tuple_lt a.1 b.1)
              (λ a b, key_ltb a.1 b.1)
              (λ p, key_kind p.1 = Some k ∧ p.1 = key_of p.2))
    with (l := (λ x, (key_of x, x)) <$> counts)
    as (r & Hr & Hs & Hp).
  - intros a b [Ha _] [Hb _]. by apply (tuple_lt_key_ltb k).
  - intros a b. apply key_ltb_asym.
  - intros a b c. apply key_ltb_trans.
  - apply Forall_fmap, Forall_forall. intros x Hx. simpl.
    rewrite Forall_forall in Hk. by rewrite key_of_kind, (Hk x Hx).
  - rewrite Hr. simpl. exists r.*2. split; [done|]. split.
    + etrans; [apply fmap_Permutation, Hp|]. by rewrite decorate_snd.
    + apply (sorted_undecorate r k); [|done].
      apply Forall_forall. intros p Hp'.
      apply (elem_of_Permutation_proper _ _ _ Hp) in Hp'.
      apply list_elem_of_fmap in Hp' as (x & -> & Hx). simpl.
      rewrite Forall_forall in Hk. by rewrite key_of_kind, (Hk x Hx).
Qed.
End track_order.

(** X7.  When the source tags are all of one kind (each holds two groups of
    digits or more, or none of them does) and no tag that sorts by its numbers
    has a group of more digits than [int] accepts, the Track Details rows come
    out without an exception, one per distinct tag, in ascending order of
    their keys: no row has a key smaller than the key of a row above it,
    integer tuples being compared number by number and text by code point.
    With such a group in some tag the sort raises the ValueError of [int]. *)
Theorem track_details_sorted `{Unicode} (k : bool) (questions : list Question)
    (section_id : str) :
  tags_of_kind k section_id questions →
  let counts := section_counts questions section_id in
  if keys_computable section_id questions
  then ∃ items,
         Py.sorted_by natural_sort_key tuple_lt counts = Ok items
         ∧ items ≡ₚ counts
         ∧ StronglySorted (λ a b, tuple_lt (key_of b) (key_of a) = Ok false)
             items
  else Py.sorted_by natural_sort_key tuple_lt counts = Raise ValueError.
Proof.
  intros Hk counts.
  destruct (keys_computable section_id questions) eqn:Hc.
  - apply (sorted_by_same_kind k);
      [by apply counts_computable|by apply counts_of_kind].
  - by apply counts_not_computable.
Qed.

Lemma track_details_sorted_witness :
  let questions :=
    [make_question (lit "Q1") [] [] (lit "1.10");
     make_question (lit "Q2") [] [] (lit "1.2");
     make_question (lit "Q3") [] [] (lit "1.9")] in
  Py.sorted_by natural_sort_key tuple_lt (section_counts questions (lit "S"))
  = Ok [(lit "1.2", 1%nat); (lit "1.9", 1%nat); (lit "1.10", 1%nat)]
  ∧ ∃ items,
      Py.sorted_by natural_sort_key tuple_lt (section_counts questions (lit "S"))
      = Ok items
      ∧ items ≡ₚ section_counts questions (lit "S")
      ∧ StronglySorted (λ a b, tuple_lt (key_of b) (key_of a) = Ok false) items.
Proof.
  intros questions. split; [vm_compute; reflexivity|].
  refine (track_details_sorted true questions (lit "S") _).
  repeat constructor.
Defined.

(** ** When the Debug table is built *)

Section produced.
Context `{Unicode}.

(** A comprehension stops at the first element whose body raises. *)
Lemma for_each_first_raise {A B} (f : A → result B) (bad : A → Prop)
    `{!∀ x, Decision (bad x)} (exn_of : A → exn) l :
  (∀ x, ¬ bad x → raises (f x) = false) →
  (∀ x, bad x → f x = Raise (exn_of x)) →
  match head (filter bad l) with
  | None => raises (for_each f l) = false
  | Some x => for_each f l = Raise (exn_of x)
  end.
Proof.
  intros Hgood Hbad. induction l as [|x l IH]; [done|].
  destruct (decide (bad x)) as [Hx|Hx].
  - rewrite filter_cons_True by done. simpl. by rewrite Hbad.
  - rewrite filter_cons_False by done. simpl.
    specialize (Hgood x Hx). destruct (f x) as [y|e]; [|done]. simpl.
    destruct (head (filter bad l)).
    + by rewrite IH.
    + by destruct (for_each f l).
Qed.

Lemma no_bad_index (indices : list Z) :
  head (filter (λ idx, ¬ has_letter idx) indices) = None
  ↔ Forall has_letter indices.
Proof.
  rewrite head_None, Forall_forall. split.
  - intros Hnil idx Hidx.
    destruct (decide (has_letter idx)) as [|Hbad]; [done|].
    assert (idx ∈ filter (λ idx, ¬ has_letter idx) indices) as Hin
      by (by apply list_elem_of_filter).
    rewrite Hnil in Hin. by apply elem_of_nil in Hin.
  - intros Hall. apply elem_of_nil_inv.
    intros idx [Hbad Hin]%list_elem_of_filter. by apply Hbad, Hall.
Qed.

Lemma correct_letter_outcome q :
  match head (filter (λ idx, ¬ has_letter idx) (correct_indices q)) with
  | None => raises (correct_letter q) = false
  | Some idx => correct_letter q = Raise (chr_exn idx)
  end.
Proof.
  destruct (head (filter _ (correct_indices q))) as [idx|] eqn:Hhead.
  - unfold correct_letter.
    destruct (correct_indices q) as [|i l] eqn:Hci; [done|].
    pose proof (for_each_first_raise (λ idx, Py.chr (65 + idx))
                  (λ idx, ¬ has_letter idx) chr_exn (i :: l)) as Hfe.
    rewrite Hhead in Hfe. rewrite Hfe; [done| |].
    + intros x Hx. apply dec_stable in Hx. by rewrite chr_Ok.
    + apply chr_Raise.
  - apply no_bad_index in Hhead.
    by destruct (correct_letter_Ok q Hhead) as (letters & -> & _).
Qed.

Lemma first_bad_index_cons q questions :
  first_bad_index (q :: questions)
  = match head (filter (λ idx, ¬ has_letter idx) (correct_indices q)) with
    | Some idx => Some idx
    | None => first_bad_index questions
    end.
Proof.
  unfold first_bad_index. rewrite bind_cons, filter_app.
  by destruct (filter _ (correct_indices q)).
Qed.

Lemma first_bad_index_None questions :
  first_bad_index questions = None ↔ letters_exist questions.
Proof.
  unfold letters_exist.
  induction questions as [|q qs IH]; [by split; [constructor|]|].
  rewrite first_bad_index_cons, Forall_cons, <-IH, <-no_bad_index.
  destruct (head (filter _ (correct_indices q))); naive_solver.
Qed.

(** The audit rows are built in the order of the questions, and the letters
    of a question in the order of its indices: the first index without a
    character decides the exception. *)
Lemma audit_rows_outcome section_id questions : ∀ i,
  match first_bad_index questions with
  | None => raises (audit_rows section_id i questions) = false
  | Some idx => audit_rows section_id i questions = Raise (chr_exn idx)
  end.
Proof.
  induction questions as [|q qs IH]; intros i; [done|].
  rewrite first_bad_index_cons. simpl. unfold audit_row.
  pose proof (correct_letter_outcome q) as Hq.
  destruct (head (filter _ (correct_indices q))) as [idx|].
  - by rewrite Hq.
  - destruct (correct_letter q) as [letter|e]; [|done]. simpl.
    specialize (IH (S i)). destruct (first_bad_index qs).
    + by rewrite IH.
    + by destruct (audit_rows section_id (S i) qs).
Qed.

Lemma debug_rows_long questions section_id :
  keys_computable section_id questions = false →
  debug_rows questions section_id = Raise ValueError.
Proof. intros Hc. unfold debug_rows. by rewrite counts_not_computable. Qed.

Lemma debug_rows_mixed questions section_id :
  keys_computable section_id questions = true →
  ¬ tags_of_kind true section_id questions →
  ¬ tags_of_kind false section_id questions →
  debug_rows questions section_id = Raise TypeError.
Proof.
  unfold tags_of_kind. intros Hc Htrue Hfalse.
  apply not_Forall_Exists in Htrue; [|apply _].
  apply not_Forall_Exists in Hfalse; [|apply _].
  apply Exists_exists in Htrue as (q2 & Hq2 & Hk2).
  apply Exists_exists in Hfalse as (q1 & Hq1 & Hk1). simpl in Hk1, Hk2.
  destruct (section_counts_keys questions section_id) as [_ Hkeys].
  assert (section_of section_id q1 ∈ (section_counts questions section_id).*1)
    as (x & Hx1 & Hx)%list_elem_of_fmap
    by (apply Hkeys, list_elem_of_fmap; eauto).
  assert (section_of section_id q2 ∈ (section_counts questions section_id).*1)
    as (y & Hy1 & Hy)%list_elem_of_fmap
    by (apply Hkeys, list_elem_of_fmap; eauto).
  unfold debug_rows.
  rewrite (sorted_mixed_items _ x y);
    [done|by apply counts_computable|done..| |].
  - rewrite <-Hx1. by destruct (has_numeric_key (section_of section_id q1)).
  - rewrite <-Hy1. by destruct (has_numeric_key (section_of section_id q2)).
Qed.

Lemma debug_rows_same_kind k questions section_id :
  keys_computable section_id questions = true →
  tags_of_kind k section_id questions →
  match first_bad_index questions with
  | None => raises (debug_rows questions section_id) = false
  | Some idx => debug_rows questions section_id = Raise (chr_exn idx)
  end.
Proof.
  intros Hc Hk. unfold debug_rows.
  destruct (sorted_by_same_kind k (section_counts questions section_id))
    as (items & -> & _);
    [by apply counts_computable|by apply counts_of_kind|].
  simpl. pose proof (audit_rows_outcome section_id questions 1) as Ha.
  destruct (first_bad_index questions).
  - by rewrite Ha.
  - by destruct (audit_rows section_id 1 questions).
Qed.
End produced.

(** X8.  The rows of the Debug sheet (lines 135 to 202) are built without an
    exception exactly when no tag that sorts by its numbers has a group of
    more digits than [int] accepts, the source tags are all of one kind, and
    every correct index [i] has a character [chr(65 + i)].  Too long a group
    raises ValueError when the keys are computed; otherwise tags of both kinds
    raise TypeError in the sort; otherwise the first correct index without a
    character raises in the audit rows, ValueError when [65 + i] is in the
    range of a C [int] and OverflowError when it is not. *)
Theorem debug_rows_outcome `{Unicode} (questions : list Question)
    (section_id : str) :
  let computable := keys_computable section_id questions = true in
  let one_kind := ∃ k, tags_of_kind k section_id questions in
  (raises (debug_rows questions section_id) = false
   ↔ computable ∧ one_kind ∧ letters_exist questions)
  ∧ (debug_rows questions section_id = Raise TypeError
     ↔ computable ∧ ¬ one_kind)
  ∧ (debug_rows questions section_id = Raise ValueError
     ↔ ¬ computable
       ∨ one_kind ∧ ∃ idx, first_bad_index questions = Some idx
                           ∧ c_int (65 + idx))
  ∧ (debug_rows questions section_id = Raise OverflowError
     ↔ computable ∧ one_kind
       ∧ ∃ idx, first_bad_index questions = Some idx ∧ ¬ c_int (65 + idx)).
Proof.
  intros computable one_kind. unfold computable.
  rewrite <-first_bad_index_None.
  destruct (keys_computable section_id questions) eqn:Hc.
  2:{ rewrite (debug_rows_long questions section_id Hc). simpl. naive_solver. }
  destruct (decide (tags_of_kind true section_id questions)) as [Ht|Ht];
    [|destruct (decide (tags_of_kind false section_id questions)) as [Hf|Hf]].
  - assert one_kind by (by exists true).
    pose proof (debug_rows_same_kind true questions section_id Hc Ht) as Hd.
    destruct (first_bad_index questions) as [idx|].
    + rewrite Hd. unfold chr_exn. simpl.
      destruct (decide (c_int (65 + idx))); naive_solver.
    + destruct (debug_rows questions section_id); naive_solver.
  - assert one_kind by (by exists false).
    pose proof (debug_rows_same_kind false questions section_id Hc Hf) as Hd.
    destruct (first_bad_index questions) as [idx|].
    + rewrite Hd. unfold chr_exn. simpl.
      destruct (decide (c_int (65 + idx))); naive_solver.
    + destruct (debug_rows questions section_id); naive_solver.
  - rewrite (debug_rows_mixed questions section_id Hc Ht Hf). simpl.
    assert (¬ one_kind) by (intros [[] ?]; done). naive_solver.
Qed.

(** The limits of [int] and [chr] at work.  A tag with a group of 4301
    digits stops the build when its key is computed; the correct answer
    "9999999999" is parsed to the index 9999999998, for which [chr] raises
    OverflowError in the audit rows; an answer of 4301 digits passes
    [str.isdigit] and is refused by [int]. *)
Example long_tag_ValueError :
  let tag := replicate 4301 0x31%N ++ lit ".2" in
  debug_rows [make_question (lit "Q") [] [] tag] (lit "S") = Raise ValueError.
Proof. vm_compute. reflexivity. Qed.

Example large_index_OverflowError :
  parse_csv_questions [four_choices (lit "9999999999")]
  = Ok [{| type := MC; question := lit "Which one?"; explanation := [];
           choices := [lit "north"; lit "east"; lit "south"; lit "west"];
           correct_indices := [9999999998]; source := [] |}]
  ∧ main (lit "quiz") [four_choices (lit "9999999999")] = Raise OverflowError.
Proof. vm_compute. done. Qed.

Example long_answer_ValueError :
  let answer := replicate 4301 0x31%N in
  Py.isdigit answer = true
  ∧ parse_row (four_choices answer) = Raise ValueError.
Proof. vm_compute. done. Qed.

(** ** The rows of the Questions sheet *)

Section question_rows_facts.
Context `{Unicode}.

Lemma question_rows_unfold section_id q :
  choices q ≠ [] →
  question_rows section_id q
  = first_row section_id q
    :: (answer_row q <$> seq 1 (length (choices q) - 1)) ++ [blank_row].
Proof. intros Hne. unfold question_rows. by rewrite bool_decide_true. Qed.

Lemma question_rows_no_choice section_id q :
  choices q = [] → question_rows section_id q = [blank_row].
Proof. intros Hnil. unfold question_rows. by rewrite bool_decide_false by auto. Qed.

Lemma question_rows_width section_id q :
  Forall (λ row, length row = 7%nat) (question_rows section_id q).
Proof.
  unfold question_rows. apply Forall_app. split; [|by repeat constructor].
  case_bool_decide; [|constructor]. constructor; [done|].
  apply Forall_fmap, Forall_forall. by intros i _.
Qed.

Lemma answer_rows_no_id q (l : list nat) :
  filter (λ row : list str, row !! 5%nat = Some (lit "ID")) (answer_row q <$> l)
  = [].
Proof.
  induction l as [|i l IH]; [done|]. rewrite fmap_cons.
  rewrite filter_cons_False; [done|]. simpl. by intros [=].
Qed.

Lemma question_rows_id_rows section_id q :
  length (filter (λ row : list str, row !! 5%nat = Some (lit "ID"))
            (question_rows section_id q))
  = if bool_decide (choices q ≠ []) then 1%nat else 0%nat.
Proof.
  case_bool_decide as Hne.
  - rewrite question_rows_unfold by done.
    rewrite filter_cons_True by done. rewrite filter_app, answer_rows_no_id.
    by rewrite filter_cons_False by (by intros [=]).
  - rewrite question_rows_no_choice by (by destruct (choices q); [|destruct Hne]).
    by rewrite filter_cons_False by (by intros [=]).
Qed.
End question_rows_facts.

(** X9.  Every row of the Questions table, the header included, has seven
    cells. *)
Theorem questions_table_width `{Unicode} (questions : list Question)
    (section_id : str) :
  Forall (λ row, length row = 7%nat) (rows questions section_id).
Proof.
  unfold rows. constructor; [done|].
  induction questions as [|q qs IH]; [constructor|].
  rewrite bind_cons. apply Forall_app. split; [apply question_rows_width|done].
Qed.

(** X10.  A question without choices leaves no content in the Questions
    table: the rows that carry a question (Meta Key "ID") are as many as the
    questions that have at least one choice, while Total Questions Parsed
    counts them all. *)
Theorem id_rows_count `{Unicode} (questions : list Question)
    (section_id : str) :
  length (filter (λ row : list str, row !! 5%nat = Some (lit "ID"))
            (rows questions section_id))
  = length (filter (λ q, choices q ≠ []) questions).
Proof.
  unfold rows. rewrite filter_cons_False by (by intros [=]).
  induction questions as [|q qs IH]; [done|].
  rewrite bind_cons, filter_app, length_app, IH, question_rows_id_rows.
  case_bool_decide as Hne.
  - by rewrite filter_cons_True by done.
  - rewrite filter_cons_False; [done|]. simpl. by intros Hq.
Qed.

(** X11.  The block of a question lists its choices in order: row [i] of the
    block holds choice [i] in the Answer column, and a "1" in the Correct
    column exactly when [i] is among the correct indices and an empty cell
    otherwise; only the first row carries the type, the text, the explanation
    and the section id. *)
Theorem choice_row `{Unicode} (section_id : str) (q : Question) (i : nat)
    (c : str) :
  choices q !! i = Some c →
  ∃ row,
    question_rows section_id q !! i = Some row
    ∧ row !! 3%nat = Some c
    ∧ row !! 4%nat
      = Some (if bool_decide (Z.of_nat i ∈ correct_indices q)
              then lit "1" else lit "")
    ∧ row !! 1%nat = Some (if bool_decide (i = 0%nat) then question q else lit "")
    ∧ row !! 6%nat
      = Some (if bool_decide (i = 0%nat) then section_of section_id q else lit "").
Proof.
  intros Hc. assert (choices q ≠ []) as Hne by (by intros Hnil; rewrite Hnil in Hc).
  pose proof (lookup_lt_Some _ _ _ Hc) as Hlt.
  rewrite question_rows_unfold by done.
  assert (choices q !!! i = c) as Htotal by (by apply list_lookup_total_correct).
  destruct i as [|i].
  - eexists. split; [done|]. simpl. by rewrite Htotal.
  - exists (answer_row q (S i)). split.
    + simpl. rewrite lookup_app_l by (rewrite length_fmap, length_seq; lia).
      rewrite list_lookup_fmap, lookup_seq_lt by lia. done.
    + simpl. by rewrite Htotal.
Qed.

Lemma choice_row_witness :
  ∃ row,
    question_rows (lit "S1") nine_of_four !! 2%nat = Some row
    ∧ row !! 3%nat = Some (lit "south")
    ∧ row !! 4%nat = Some (lit "")
    ∧ row !! 1%nat = Some (lit "")
    ∧ row !! 6%nat = Some (lit "").
Proof.
  apply (choice_row (lit "S1") nine_of_four 2 (lit "south")). reflexivity.
Defined.

(** ** The audit rows *)

Section audit_facts.
Context `{Unicode}.

Lemma audit_rows_lookup section_id questions : ∀ k audit i q,
  audit_rows section_id k questions = Ok audit →
  questions !! i = Some q →
  ∃ row, audit !! i = Some row ∧ audit_row section_id (k + i) q = Ok row.
Proof.
  induction questions as [|q0 qs IH]; intros k audit i q Ha Hq; [done|].
  simpl in Ha. inv_bind Ha. injection Ha as <-.
  destruct i as [|i]; simpl in Hq.
  - injection Hq as <-. exists a. split; [done|].
    by replace (k + 0)%nat with k by lia.
  - destruct (IH _ _ _ _ Ha1 Hq) as (row & Hrow & Haudit).
    exists row. split; [done|].
    by replace (k + S i)%nat with (S k + i)%nat by lia.
Qed.

Lemma singletons_of (r : list str) :
  Forall (λ s, ∃ c, s = [c]) r →
  (λ c, [c]) <$> ((λ s, default 0%N (head s)) <$> r) = r.
Proof.
  induction 1 as [|s r [c ->] _ IH]; [done|]. rewrite !fmap_cons. by f_equal.
Qed.

Lemma singletons_sorted (codes : list N) :
  StronglySorted (λ a b, Py.str_lt b a = false) ((λ c, [c]) <$> codes) →
  StronglySorted N.le codes.
Proof.
  induction codes as [|c codes IH]; [constructor|].
  rewrite fmap_cons. intros Hs. inversion_clear Hs as [|?? Hs' Hle].
  constructor; [by apply IH|].
  apply Forall_fmap in Hle. eapply Forall_impl; [exact Hle|].
  intros d Hd. simpl in Hd.
  destruct (N.ltb_spec d c); [done|]. lia.
Qed.
End audit_facts.

(** X12.  In a Debug table that is produced, the audit row of the question
    at position [i] (from zero) is row [12 + T + i], where [T] is the number
    of Track Details rows: it holds the section of the question, its number
    [i + 1], the preview, the correct letters, an empty page reference and
    the explanation flag. *)
Theorem audit_row_position `{Unicode} (questions : list Question)
    (section_id : str) (debug : list (list cell)) (i : nat) (q : Question) :
  debug_rows questions section_id = Ok debug →
  questions !! i = Some q →
  ∃ letter,
    correct_letter q = Ok letter
    ∧ debug !! (12 + length (section_counts questions section_id) + i)%nat
      = Some [CStr (section_of section_id q); CStr (Py.str_of_nat (S i));
              CStr (question_preview q); CStr letter; CStr (lit "");
              CStr (has_explanation q)].
Proof.
  unfold debug_rows. intros Hd Hq. inv_bind Hd.
  rename a into items, a0 into audit.
  assert (debug = summary_block (length questions)
                    (length (section_counts questions section_id))
                  ++ (track_row <$> items) ++ errors_block ++ audit) as ->
    by congruence.
  clear Hd.
  pose proof (Permutation_length (sorted_by_Permutation _ _ _ _ Ha)) as Hlen.
  destruct (audit_rows_lookup _ _ _ _ _ _ Ha0 Hq) as (row & Hrow & Haudit).
  unfold audit_row in Haudit. inv_bind Haudit. injection Haudit as <-.
  exists a. split; [done|].
  replace (12 + length (section_counts questions section_id) + i)%nat
    with (7 + (length (track_row <$> items) + (5 + i)))%nat
    by (rewrite length_fmap; lia).
  change (summary_block (length questions)
            (length (section_counts questions section_id))
          ++ (track_row <$> items) ++ errors_block ++ audit)
    with (summary_block (length questions)
            (length (section_counts questions section_id))
          ++ ((track_row <$> items) ++ errors_block ++ audit)).
  rewrite (lookup_app_r (summary_block _ _)) by (simpl; lia).
  rewrite lookup_app_r by (simpl; lia).
  replace (7 + (length (track_row <$> items) + (5 + i))
           - length (summary_block (length questions)
                       (length (section_counts questions section_id)))
           - length (track_row <$> items))%nat
    with (5 + i)%nat by (simpl; lia).
  exact Hrow.
Qed.

Lemma audit_row_position_witness :
  let questions :=
    [make_question (lit "Q1") [] [2; 0] (lit "1.10");
     make_question sixty [] [] (lit "1.2")] in
  ∃ debug, debug_rows questions (lit "S") = Ok debug
    ∧ ∃ letter,
        correct_letter (make_question sixty [] [] (lit "1.2")) = Ok letter
        ∧ debug !! (12 + length (section_counts questions (lit "S")) + 1)%nat
          = Some [CStr (lit "1.2"); CStr (lit "2");
                  CStr (take 47 sixty ++ lit "..."); CStr letter; CStr (lit "");
                  CStr (lit "No")].
Proof.
  intros questions. eexists. split; [vm_compute; reflexivity|].
  apply (audit_row_position questions (lit "S") _ 1
           (make_question sixty [] [] (lit "1.2"))).
  - vm_compute. reflexivity.
  - reflexivity.
Defined.

(** X13.  When every correct index has a character, the Correct Answer cell
    is the letters [chr(65 + i)] of all correct indices in ascending order of
    code point, separated by a comma and a space; an index that occurs twice
    gives its letter twice. *)
Theorem correct_letter_sorted `{Unicode} (q : Question) :
  Forall has_letter (correct_indices q) →
  ∃ codes,
    correct_letter q = Ok (Py.join (lit ", ") ((λ c, [c]) <$> codes))
    ∧ codes ≡ₚ letter_of <$> correct_indices q
    ∧ StronglySorted N.le codes.
Proof.
  intros Hvalid. unfold correct_letter.
  destruct (correct_indices q) as [|i0 l0] eqn:Hci.
  { exists []. repeat split; [done|constructor]. }
  rewrite <-Hci in *. clear i0 l0 Hci.
  rewrite (for_each_total _ (λ idx, [letter_of idx])).
  2:{ intros idx Hidx. rewrite Forall_forall in Hvalid.
      specialize (Hvalid idx Hidx). by apply chr_Ok. }
  simpl.
  destruct (sorted_sorted (λ a b : str, Ok (Py.str_lt a b)) Py.str_lt
              (λ _, True))
    with (l := (λ idx, [letter_of idx]) <$> correct_indices q)
    as (r & -> & Hs & Hp); [done|apply str_lt_asym|apply str_lt_trans| |].
  { by apply Forall_forall. }
  simpl. exists ((λ s, default 0%N (head s)) <$> r).
  assert (Forall (λ s : str, ∃ c, s = [c]) r) as Hsingle.
  { apply Forall_forall. intros s Hs'.
    apply (elem_of_Permutation_proper _ _ _ Hp) in Hs'.
    apply list_elem_of_fmap in Hs' as (idx & -> & _). eauto. }
  rewrite (singletons_of r Hsingle). split; [done|]. split.
  - etrans; [apply fmap_Permutation, Hp|].
    rewrite <-list_fmap_compose. done.
  - apply singletons_sorted. by rewrite (singletons_of r Hsingle).
Qed.

Lemma correct_letter_sorted_witness :
  correct_letter (make_question (lit "Q") [] [2; 0; 2] []) = Ok (lit "A, C, C")
  ∧ ∃ codes,
      correct_letter (make_question (lit "Q") [] [2; 0; 2] [])
      = Ok (Py.join (lit ", ") ((λ c, [c]) <$> codes))
      ∧ codes ≡ₚ letter_of <$> [2; 0; 2]
      ∧ StronglySorted N.le codes.
Proof.
  split; [vm_compute; reflexivity|].
  apply (correct_letter_sorted (make_question (lit "Q") [] [2; 0; 2] [])).
  repeat constructor; vm_compute; discriminate.
Defined.

(** * Further properties of main *)

Section strip_facts.
Context `{Unicode}.

Lemma lstrip_suffix s : Py.lstrip s `suffix_of` s.
Proof.
  induction s as [|c s IH]; simpl; [done|].
  destruct (isspace_char c); [by apply suffix_cons_r|done].
Qed.

Lemma lstrip_head s :
  match Py.lstrip s with
  | c :: _ => isspace_char c = false
  | [] => True
  end.
Proof.
  induction s as [|c s IH]; simpl; [done|].
  by destruct (isspace_char c) eqn:Hc.
Qed.

Lemma lstrip_fixed s :
  match s with c :: _ => isspace_char c = false | [] => True end →
  Py.lstrip s = s.
Proof. destruct s as [|c s]; simpl; [done|]. by intros ->. Qed.

Lemma strip_prefix s : Py.strip s `prefix_of` Py.lstrip s.
Proof.
  unfold Py.strip. apply prefix_suffix_reverse.
  rewrite reverse_involutive. apply lstrip_suffix.
Qed.

(** [strip] leaves a stripped string as it is. *)
Lemma strip_idemp s : Py.strip (Py.strip s) = Py.strip s.
Proof.
  assert (Py.lstrip (Py.strip s) = Py.strip s) as Hl.
  { apply lstrip_fixed. destruct (strip_prefix s) as [k Hk].
    pose proof (lstrip_head s) as Hhead. rewrite Hk in Hhead.
    by destruct (Py.strip s). }
  unfold Py.strip at 1. rewrite Hl. unfold Py.strip.
  rewrite reverse_involutive.
  rewrite (lstrip_fixed (Py.lstrip _)) by apply lstrip_head. done.
Qed.

Lemma parse_row_source r q :
  parse_row r = Ok (Some q) → Py.strip (source q) = source q.
Proof.
  unfold parse_row. intros Hq.
  destruct (negb (truthy (r !! "Question"%string))); [done|].
  apply bind_Ok in Hq as (text & _ & Hq).
  destruct (negb (truthy (Some (PyStr text)))); [done|].
  apply bind_Ok in Hq as (expl & _ & Hq).
  apply bind_Ok in Hq as (src & Hsrc & Hq).
  apply bind_Ok in Hq as (ca & _ & Hq).
  apply bind_Ok in Hq as ([t idx] & _ & Hq).
  injection Hq as <-. simpl.
  unfold value_strip in Hsrc. destruct (get_or_empty r "Source"); [done|].
  injection Hsrc as <-. apply strip_idemp.
Qed.

Lemma parse_csv_questions_sources reader questions :
  parse_csv_questions reader = Ok questions →
  Forall (λ q, Py.strip (source q) = source q) questions.
Proof.
  revert questions. induction reader as [|r reader IH]; intros questions;
    simpl.
  - intros [= <-]. constructor.
  - intros Hq. inv_bind Hq. injection Hq as <-.
    destruct a as [q|]; [|by apply IH].
    constructor; [by eapply parse_row_source|by apply IH].
Qed.
End strip_facts.

(** X14.  The default section id of a run is the source tag of the first
    parsed question whenever that tag is not empty, and the input file name
    is then not consulted; only when the first question has no tag is the id
    derived from the file name.  The run returns the workbook built with that
    id, or raises what the builder raises. *)
Theorem main_section_id `{Unicode} (stem : str) (reader : list row)
    (q : Question) (questions : list Question) :
  parse_csv_questions reader = Ok (q :: questions) →
  let section_id :=
    if bool_decide (source q = []) then filename_section_id stem else source q in
  match create_xlsx_output (q :: questions) section_id with
  | Ok (workbook, _) => main stem reader = Ok workbook
  | Raise e => main stem reader = Raise e
  end.
Proof.
  intros Hparse. unfold main. rewrite Hparse. simpl.
  pose proof (parse_csv_questions_sources _ _ Hparse) as Hsrc.
  inversion_clear Hsrc as [|?? Hq _].
  destruct (source q) as [|c s] eqn:Hs; simpl.
  - by destruct (create_xlsx_output _ _) as [[??]|].
  - rewrite Hq.
    by destruct (create_xlsx_output _ _) as [[??]|].
Qed.

Lemma main_section_id_witness :
  let reader :=
    [make_row [("Question", lit "One?"); ("Source", lit " 2.1 ")]%string;
     make_row [("Question", lit "Two?")]%string] in
  ∃ workbook,
    main (lit "my quiz_file") reader = Ok workbook
    ∧ Debug workbook !! 7%nat
      = Some [CStr (lit "  2.1"); CStr (lit "2 questions")].
Proof.
  intros reader.
  pose proof (main_section_id (lit "my quiz_file") reader
                (make_question (lit "One?") [] [] (lit "2.1"))
                [make_question (lit "Two?") [] [] []]) as Hmain.
  eexists. split.
  - apply Hmain. vm_compute. reflexivity.
  - reflexivity.
Defined.

(** * ASCII answers *)

Section ascii_generic.
Context `{Unicode}.

Lemma strip_Forall (P : N → Prop) s : Forall P s → Forall P (Py.strip s).
Proof.
  intros Hs. destruct (strip_prefix s) as [k Hk].
  destruct (lstrip_suffix s) as [k' Hk'].
  rewrite Hk', Hk in Hs. by apply Forall_app in Hs as [_ [Hs _]%Forall_app].
Qed.

Lemma split_Forall (P : N → Prop) sep s :
  Forall P s → Forall (Forall P) (Py.split sep s).
Proof.
  induction 1 as [|c s Hc Hs IH]; simpl; [by repeat constructor|].
  destruct (c =? sep)%N; [by constructor|].
  destruct (Py.split sep s) as [|t ts]; [by repeat constructor|].
  inversion_clear IH. constructor; [by constructor|done].
Qed.

Lemma strip_length s : (length (Py.strip s) ≤ length s)%nat.
Proof.
  destruct (strip_prefix s) as [k Hk]. destruct (lstrip_suffix s) as [k' Hk'].
  rewrite Hk' at 2. rewrite Hk, !length_app. lia.
Qed.

Lemma split_length sep s :
  Forall (λ t, (length t ≤ length s)%nat) (Py.split sep s).
Proof.
  induction s as [|c s IH]; simpl; [by repeat constructor|].
  destruct (c =? sep)%N.
  - constructor; [simpl; lia|].
    eapply Forall_impl; [exact IH|]. intros t Ht. simpl in Ht. lia.
  - destruct (Py.split sep s) as [|t ts];
      [constructor; [simpl; lia|constructor]|].
    inversion_clear IH as [|?? Ht Hts]. constructor; [simpl; lia|].
    eapply Forall_impl; [exact Hts|]. intros t' Ht'. simpl in Ht'. lia.
Qed.
End ascii_generic.

Lemma latin1_upper_ascii s :
  ascii_str s → ascii_str (upper s) ∧ length (upper s) = length s.
Proof.
  unfold ascii_str. induction 1 as [|c s Hc Hs [IH1 IH2]]; [by split|].
  change (upper (c :: s)) with (latin1_upper_char c ++ upper s).
  assert (∃ d, latin1_upper_char c = [d] ∧ (d < 128)%N) as (d & -> & Hd).
  { unfold latin1_upper_char, between.
    destruct (N.leb_spec 0x61 c), (N.leb_spec c 0x7A); simpl.
    - exists (c - 0x20)%N. split; [done|lia].
    - destruct (N.leb_spec 0xE0 c); [lia|]. destruct (N.leb_spec 0xF8 c); [lia|].
      simpl. destruct (N.eqb_spec c 0xB5); [lia|].
      destruct (N.eqb_spec c 0xDF); [lia|]. destruct (N.eqb_spec c 0xFF); [lia|].
      eauto.
    - destruct (N.leb_spec 0xE0 c); [lia|]. destruct (N.leb_spec 0xF8 c); [lia|].
      simpl. destruct (N.eqb_spec c 0xB5); [lia|].
      destruct (N.eqb_spec c 0xDF); [lia|]. destruct (N.eqb_spec c 0xFF); [lia|].
      eauto.
    - lia. }
  simpl. split; [by constructor|by f_equal].
Qed.

Lemma latin1_digit_decimal s :
  ascii_str s → Py.isdigit s = true →
  Forall (λ c, is_Some (decimal_char c)) s.
Proof.
  unfold Py.isdigit. intros Hs [_ Hd]%andb_true_iff.
  induction Hs as [|c s Hc Hs IH]; [constructor|]. simpl in Hd.
  apply andb_true_iff in Hd as [Hdc Hd]. constructor; [|by apply IH].
  simpl. unfold latin1_decimal. unfold latin1_isdigit in Hdc.
  destruct (between 0x30 0x39 c); [by eexists|]. simpl in Hdc.
  destruct (N.eqb_spec c 0xB2); [lia|]. destruct (N.eqb_spec c 0xB3); [lia|].
  destruct (N.eqb_spec c 0xB9); [lia|]. done.
Qed.

Lemma ascii_token_decimal token :
  ascii_str token → (length token ≤ Py.max_str_digits)%nat →
  decimal_if_digit token.
Proof.
  intros Ht Hlen Hd.
  destruct (latin1_upper_ascii (Py.strip token)) as [Hup Hlen'];
    [by apply strip_Forall|].
  split; [by apply latin1_digit_decimal|].
  rewrite Hlen'. pose proof (strip_length token). lia.
Qed.

Lemma resolve_ascii t choices ca :
  ascii_str ca → (length ca ≤ Py.max_str_digits)%nat →
  ∃ out, resolve t choices ca = Ok out.
Proof.
  intros Hca Hmax. unfold resolve.
  destruct (contains_char comma ca).
  { rewrite multi_indices_refines_spec; [simpl; eauto|].
    pose proof (split_Forall (λ c, (c < 128)%N) comma ca Hca) as Hascii.
    pose proof (split_length comma ca) as Hshort.
    rewrite Forall_forall in Hascii, Hshort. apply Forall_forall.
    intros token Htoken. apply ascii_token_decimal; [by apply Hascii|].
    specialize (Hshort token Htoken). simpl in Hshort. lia. }
  destruct (contains (lower ca) _); [eauto|].
  destruct (Py.isdigit ca) eqn:Hdigit.
  { rewrite int_decimal; [simpl; eauto| |done|by apply latin1_digit_decimal].
    intros ->. done. }
  destruct (bool_decide (length (Py.strip ca) = 1%nat)) eqn:Hlen;
    [|rewrite andb_false_l; eauto].
  apply bool_decide_eq_true in Hlen.
  destruct (latin1_upper_ascii (Py.strip ca)) as [_ Hup];
    [by apply strip_Forall|].
  rewrite Hlen in Hup. rewrite andb_true_l.
  destruct (upper (Py.strip ca)) as [|c [|??]]; try done.
  destruct (Py.isalpha [c]); simpl; eauto.
Qed.

(** X15.  With the character tables of U+0000..U+00FF, a record whose
    optional columns are strings never makes the parser raise when its correct
    answer is written in ASCII and has no more characters than [int] accepts
    digits (4300): every all-digit token is then a decimal number that [int]
    parses.  The record is skipped or gives a question. *)
Theorem ascii_answer_never_raises (r : row) :
  ¬ is_None r "Explanation" → ¬ is_None r "Source" →
  ¬ is_None r "Correct Answer" → ascii_answer r → short_answer r →
  raises (parse_row r) = false.
Proof.
  intros Hex Hso Hca Hascii Hshort.
  unfold parse_row, ascii_answer, short_answer, is_None, get_or_empty in *.
  destruct (r !! "Question"%string) as [[|[|c s]]|]; simpl; [done..| |done].
  destruct (Py.strip (c :: s)) as [|d u]; simpl; [done|].
  destruct (r !! "Explanation"%string) as [[|ex]|]; simpl; [done|..];
    (destruct (r !! "Source"%string) as [[|so]|]; simpl; [done|..]);
    (destruct (r !! "Correct Answer"%string) as [[|ca]|]; simpl; [done|..]);
    first
      [ done
      | match goal with
        | |- context [resolve ?t ?cs ?a] =>
            destruct (resolve_ascii t cs a) as [[??] ->];
            [by (apply strip_Forall || constructor)
            |try (pose proof (strip_length ca)); simpl; lia
            |done]
        end ].
Qed.

Lemma ascii_answer_never_raises_witness :
  raises (parse_row (four_choices (lit "b, 3, x, 12"))) = false.
Proof.
  apply (ascii_answer_never_raises (four_choices (lit "b, 3, x, 12"))).
  - vm_compute. discriminate.
  - vm_compute. discriminate.
  - vm_compute. discriminate.
  - vm_compute. repeat constructor.
  - vm_compute. apply Nat.leb_le. vm_compute. reflexivity.
Defined.

(** * The letter conversion of the transformer *)

Lemma latin1_lower_fmap s : lower s = latin1_lower <$> s.
Proof.
  induction s as [|c s IH]; [done|].
  change (lower (c :: s)) with (latin1_lower_char c ++ lower s).
  rewrite IH, fmap_cons. unfold latin1_lower_char, latin1_lower.
  by destruct (_ || _).
Qed.

Lemma latin1_lower_isspace c :
  latin1_isspace (latin1_lower c) = latin1_isspace c.
Proof.
  unfold latin1_lower, latin1_isspace, between.
  destruct (N.leb_spec 0x41 c), (N.leb_spec c 0x5A), (N.leb_spec 0xC0 c),
    (N.leb_spec c 0xD6), (N.leb_spec 0xD8 c), (N.leb_spec c 0xDE);
    simpl; try done; try lia;
    repeat match goal with
           | |- context [(?a <=? ?b)%N] => destruct (N.leb_spec a b)
           | |- context [(?a =? ?b)%N] => destruct (N.eqb_spec a b)
           end; simpl; try done; lia.
Qed.

Lemma latin1_lstrip_lower s :
  Py.lstrip (latin1_lower <$> s) = latin1_lower <$> Py.lstrip s.
Proof.
  induction s as [|c s IH]; [done|]. rewrite fmap_cons. simpl.
  rewrite latin1_lower_isspace. by destruct (latin1_isspace c).
Qed.

Lemma latin1_strip_lower s : Py.strip (lower s) = latin1_lower <$> Py.strip s.
Proof.
  rewrite latin1_lower_fmap. unfold Py.strip.
  by rewrite latin1_lstrip_lower, <-fmap_reverse, latin1_lstrip_lower,
    <-fmap_reverse.
Qed.

Lemma latin1_lower_letter c d :
  latin1_lower c = d → (0x61 ≤ d ≤ 0x64)%N → c = d ∨ c = (d - 0x20)%N.
Proof.
  unfold latin1_lower, between. intros <-.
  destruct (N.leb_spec 0x41 c), (N.leb_spec c 0x5A), (N.leb_spec 0xC0 c),
    (N.leb_spec c 0xD6), (N.leb_spec 0xD8 c), (N.leb_spec c 0xDE);
    simpl; lia.
Qed.

Lemma letter_map_lookup key v :
  letter_map !! key = Some v →
  ∃ d : N, (0x61 ≤ d ≤ 0x64)%N ∧ key = [d] ∧ v = [(d - 0x30)%N].
Proof.
  intros Hkey%elem_of_list_to_map_2.
  repeat match goal with
         | Hin : _ ∈ _ :: _ |- _ => apply elem_of_cons in Hin as [Hin|Hin]
         | Hin : _ ∈ [] |- _ => by apply elem_of_nil in Hin
         end; injection Hkey as -> ->.
  - exists 0x61%N. by repeat split.
  - exists 0x62%N. by repeat split.
  - exists 0x63%N. by repeat split.
  - exists 0x64%N. by repeat split.
Qed.

(** X16.  The transformer turns the answers a, b, c and d, in either case
    and with surrounding white space, into 1, 2, 3 and 4 respectively, and
    returns every other answer as it was given, white space included.  The
    converter then derives from the converted answer the same type and
    correct indices as from the original one: the letter rule and the number
    rule agree on a to d.  Stated for answers below U+0100, on which [lower]
    and [strip] are those of the interpreter. *)
Theorem letter_conversion_keeps_indices (letter : str) (t : QuestionType)
    (choices : list str) :
  Forall (λ c, (c < 256)%N) letter →
  let answer := Py.strip letter in
  let converted := convert_answer_letter_to_number letter in
  (answer ∈ [lit "a"; lit "A"] → converted = lit "1")
  ∧ (answer ∈ [lit "b"; lit "B"] → converted = lit "2")
  ∧ (answer ∈ [lit "c"; lit "C"] → converted = lit "3")
  ∧ (answer ∈ [lit "d"; lit "D"] → converted = lit "4")
  ∧ (answer ∉ [lit "a"; lit "A"; lit "b"; lit "B";
               lit "c"; lit "C"; lit "d"; lit "D"] → converted = letter)
  ∧ resolve t choices (Py.strip converted) = resolve t choices answer.
Proof.
  intros _ answer converted. unfold converted, convert_answer_letter_to_number.
  rewrite latin1_strip_lower. fold answer.
  destruct (letter_map !! (latin1_lower <$> answer)) as [v|] eqn:Hkey; simpl.
  - apply letter_map_lookup in Hkey as (d & Hd & Hkey & ->).
    destruct answer as [|c [|??]] eqn:Hanswer; try done.
    injection Hkey as Hc.
    assert (d = 0x61 ∨ d = 0x62 ∨ d = 0x63 ∨ d = 0x64)%N
      as [->|[->|[->| ->]]] by lia;
      (destruct (latin1_lower_letter c _ Hc) as [->| ->]; [lia|..]);
      (split; [|split; [|split; [|split; [|split]]]];
       [intros Hin; try reflexivity;
        repeat (apply elem_of_cons in Hin as [Hin|Hin]; [by injection Hin|]);
        by apply elem_of_nil in Hin..
       |intros Hnot; exfalso; apply Hnot; set_solver
       |vm_compute; reflexivity]).
  - assert (∀ s, s ∈ [lit "a"; lit "A"; lit "b"; lit "B";
                      lit "c"; lit "C"; lit "d"; lit "D"] → answer ≠ s)
      as Hother.
    { intros s Hs ->. revert Hkey.
      repeat (apply elem_of_cons in Hs as [->|Hs]; [by vm_compute|]).
      by apply elem_of_nil in Hs. }
    split; [|split; [|split; [|split; [|split]]]]; try done;
      intros Hin; exfalso; (apply (Hother answer); [set_solver|done]).
Qed.

Lemma letter_conversion_keeps_indices_witness :
  convert_answer_letter_to_number (lit " C ") = lit "3"
  ∧ resolve MC [] (Py.strip (convert_answer_letter_to_number (lit " C ")))
    = resolve MC [] (Py.strip (lit " C ")).
Proof.
  destruct (letter_conversion_keeps_indices (lit " C ") MC [])
    as (_ & _ & Hc & _ & _ & Hresolve).
  - repeat constructor.
  - split; [|exact Hresolve].
    apply Hc, list_elem_of_further, list_elem_of_here.
Defined.

(** * Invariants of a parsed question *)

Section question_invariants.
Context `{Unicode}.

Lemma parse_row_fields r q :
  parse_row r = Ok (Some q) →
  (∃ s, question q = Py.strip s) ∧ question q ≠ []
  ∧ (∃ s, explanation q = Py.strip s)
  ∧ choices q = extract_choices r.
Proof.
  unfold parse_row. intros Hq.
  destruct (negb (truthy (r !! "Question"%string))); [done|].
  apply bind_Ok in Hq as (text & Htext & Hq).
  destruct (truthy (Some (PyStr text))) eqn:Hne; [|done]. simpl in Hq.
  apply bind_Ok in Hq as (expl & Hexpl & Hq).
  apply bind_Ok in Hq as (src & _ & Hq).
  apply bind_Ok in Hq as (ca & _ & Hq).
  apply bind_Ok in Hq as ([t idx] & _ & Hq).
  injection Hq as <-. simpl.
  unfold value_strip in Htext, Hexpl.
  destruct (get_or_empty r "Question"); [done|]. injection Htext as <-.
  destruct (get_or_empty r "Explanation"); [done|]. injection Hexpl as <-.
  split; [eauto|]. split; [|split; [eauto|done]].
  intros Hnil. by rewrite Hnil in Hne.
Qed.

Lemma extract_choices_trimmed r :
  Forall (λ c, Py.strip c = c ∧ c ≠ []) (extract_choices r).
Proof.
  destruct (extract_choices_breaks r) as (n & _ & _ & Hall & _).
  apply Forall_forall. intros c Hc.
  apply list_elem_of_lookup in Hc as [i Hi].
  destruct (Forall2_lookup_r _ _ _ _ _ Hall Hi) as (j & _ & Hat).
  unfold choice_at in Hat. destruct (r !! choice_key j) as [[|s]|]; try done.
  destruct (truthy (Some (PyStr s))); [|done]. simpl in Hat.
  destruct (Py.strip s) eqn:Hs; [done|]. injection Hat as <-.
  split; [|done]. rewrite <-Hs. apply strip_idemp.
Qed.
End question_invariants.

(** X17.  Every question the parser produces is trimmed: its text is not
    empty and, like its explanation and its source, has no white space at
    either end (stripping it again changes nothing); every choice is non-empty
    and trimmed as well. *)
Theorem parsed_question_trimmed `{Unicode} (r : row) (q : Question) :
  parse_row r = Ok (Some q) →
  question q ≠ []
  ∧ Py.strip (question q) = question q
  ∧ Py.strip (explanation q) = explanation q
  ∧ Py.strip (source q) = source q
  ∧ Forall (λ c, Py.strip c = c ∧ c ≠ []) (choices q).
Proof.
  intros Hq. pose proof (parse_row_source r q Hq) as Hsrc.
  destruct (parse_row_fields r q Hq) as ([s ->] & Hne & [s' ->] & ->).
  repeat split; [done|apply strip_idemp..|done|apply extract_choices_trimmed].
Qed.

Lemma parsed_question_trimmed_witness :
  ∃ q,
    parse_row (make_row [("Question", lit "  Why? "); ("Choice 1", lit " so ");
                         ("Explanation", lit " because ")]%string)
    = Ok (Some q)
    ∧ question q ≠ []
    ∧ Py.strip (question q) = question q
    ∧ Py.strip (explanation q) = explanation q
    ∧ Py.strip (source q) = source q
    ∧ Forall (λ c, Py.strip c = c ∧ c ≠ []) (choices q).
Proof.
  eexists. split; [vm_compute; reflexivity|].
  apply (parsed_question_trimmed
           (make_row [("Question", lit "  Why? "); ("Choice 1", lit " so ");
                      ("Explanation", lit " because ")]%string)).
  vm_compute. reflexivity.
Defined.

(** X18.  Only a question of type MA can carry more than one correct
    index: a question of type TF or MC has at most one. *)
Theorem single_answer_types `{Unicode} (r : row) (q : Question) :
  parse_row r = Ok (Some q) →
  type q ≠ MA →
  (length (correct_indices q) ≤ 1)%nat.
Proof.
  intros (ca & _ & _ & Hres)%parse_row_Some Hma.
  destruct (contains_char comma ca) eqn:Hcomma.
  - apply resolve_type in Hres. by rewrite Hcomma in Hres.
  - by eapply resolve_single.
Qed.

Lemma single_answer_types_witness :
  ∃ q, parse_row (four_choices (lit "West")) = Ok (Some q)
       ∧ correct_indices q = [3]
       ∧ (length (correct_indices q) ≤ 1)%nat.
Proof.
  eexists. split; [vm_compute; reflexivity|]. split; [reflexivity|].
  apply (single_answer_types (four_choices (lit "West"))).
  - vm_compute. reflexivity.
  - discriminate.
Defined.

(** * The intermediate rows of the transformer *)

Section transformer.
Context `{Unicode}.

Lemma column_trimmed row i : Py.strip (column row i) = column row i.
Proof.
  unfold column. case_bool_decide; [apply strip_idemp|reflexivity].
Qed.

Lemma choice_at_trimmed r i s :
  r !! choice_key i = Some (PyStr s) → Py.strip s = s →
  choice_at r i = if bool_decide (s = []) then None else Some s.
Proof.
  unfold choice_at. intros -> ->. by destruct s.
Qed.

Lemma intermediate_choices (stem a b c d ca src ex : str) :
  Py.strip a = a → Py.strip b = b → Py.strip c = c → Py.strip d = d →
  extract_choices
    (list_to_map
       [("Question", PyStr stem); ("Choice 1", PyStr a); ("Choice 2", PyStr b);
        ("Choice 3", PyStr c); ("Choice 4", PyStr d);
        ("Correct Answer", PyStr ca); ("Source", PyStr src);
        ("Explanation", PyStr ex)]%string)
  = leading_answers [a; b; c; d].
Proof.
  intros Ha Hb Hc Hd. unfold extract_choices.
  set (r := list_to_map _).
  assert (size r = 8%nat) as -> by (vm_compute; reflexivity).
  cbn [leading_answers].
  rewrite extract_choices_from_S, (choice_at_trimmed r 1 a) by done.
  case_bool_decide; [done|]. f_equal.
  rewrite extract_choices_from_S, (choice_at_trimmed r 2 b) by done.
  case_bool_decide; [done|]. f_equal.
  rewrite extract_choices_from_S, (choice_at_trimmed r 3 c) by done.
  case_bool_decide; [done|]. f_equal.
  rewrite extract_choices_from_S, (choice_at_trimmed r 4 d) by done.
  case_bool_decide; [done|]. f_equal.
Qed.

Lemma intermediate_row_parse source_prefix row r :
  transform_row source_prefix row = Some r →
  let cs := leading_answers
              [column row 3; column row 4; column row 5; column row 6] in
  parse_row r
  = resolve (infer_type cs) cs
      (Py.strip (convert_answer_letter_to_number (column row 7)))
    ≫= λ '(t, indices),
         Ok (Some {| type := t; question := column row 2;
                     explanation := column row 8; choices := cs;
                     correct_indices := indices;
                     source := Py.strip (source_prefix ++ lit "-"
                                         ++ column row 1) |}).
Proof.
  unfold transform_row. intros Hr.
  destruct (_ || _); [done|].
  case_bool_decide as Hstem; [done|]. apply (inj Some) in Hr as <-.
  unfold parse_row.
  rewrite (intermediate_choices (column row 2)) by apply column_trimmed.
  set (r := list_to_map _).
  replace (r !! "Question"%string) with (Some (PyStr (column row 2)))
    by (vm_compute; reflexivity).
  unfold get_or_empty.
  replace (r !! "Question"%string) with (Some (PyStr (column row 2)))
    by (vm_compute; reflexivity).
  replace (r !! "Explanation"%string) with (Some (PyStr (column row 8)))
    by (vm_compute; reflexivity).
  replace (r !! "Source"%string)
    with (Some (PyStr (source_prefix ++ lit "-" ++ column row 1)))
    by (vm_compute; reflexivity).
  replace (r !! "Correct Answer"%string)
    with (Some (PyStr (convert_answer_letter_to_number (column row 7))))
    by (vm_compute; reflexivity).
  simpl. rewrite !column_trimmed.
  destruct (column row 2) as [|ch s]; done.
Qed.
End transformer.

(** X19.  An intermediate row that the transformer emits, read back as it
    was written, is never skipped by the converter and never raises
    AttributeError there.  The question the
    converter makes of it has the trimmed question stem as text, the trimmed
    explanation column, the source [prefix-number] trimmed, and as choices the
    trimmed answers A to D up to the first empty one: an empty answer hides
    the answers behind it. *)
Theorem intermediate_row_question `{Unicode} (source_prefix : str)
    (row : list str) (r : gmap string value) :
  transform_row source_prefix row = Some r →
  parse_row r ≠ Ok None
  ∧ parse_row r ≠ Raise AttributeError
  ∧ ∀ q, parse_row r = Ok (Some q) →
         question q = column row 2
         ∧ explanation q = column row 8
         ∧ source q = Py.strip (source_prefix ++ lit "-" ++ column row 1)
         ∧ choices q
           = leading_answers
               [column row 3; column row 4; column row 5; column row 6].
Proof.
  intros Hr. rewrite (intermediate_row_parse source_prefix row r Hr).
  destruct (resolve _ _ _) as [[t indices]|e] eqn:Hres; simpl.
  - split; [done|]. split; [done|]. by intros q [= <-].
  - split; [done|]. split; [|done]. intros [= ->].
    apply resolve_exn in Hres. naive_solver.
Qed.

Lemma intermediate_row_question_witness :
  ∃ r, transform_row (lit "PREP-AL-STD") sheet_row = Some r
    ∧ leading_answers
        [column sheet_row 3; column sheet_row 4; column sheet_row 5;
         column sheet_row 6] = [lit "x"]
    ∧ parse_row r ≠ Ok None
    ∧ parse_row r ≠ Raise AttributeError
    ∧ ∀ q, parse_row r = Ok (Some q) →
           question q = column sheet_row 2
           ∧ explanation q = column sheet_row 8
           ∧ source q
             = Py.strip (lit "PREP-AL-STD" ++ lit "-" ++ column sheet_row 1)
           ∧ choices q
             = leading_answers
                 [column sheet_row 3; column sheet_row 4; column sheet_row 5;
                  column sheet_row 6].
Proof.
  eexists. split; [reflexivity|]. split; [vm_compute; reflexivity|].
  apply (intermediate_row_question (lit "PREP-AL-STD") sheet_row).
  reflexivity.
Defined.

(** * The range of the correct indices *)

Section index_range.
Context `{Unicode}.
Context (Hdigits : digits_from_zero) (Hletters : letters_from_A).

Lemma int_digits_nonneg s : ∀ acc n,
  0 ≤ acc → Py.int_digits acc s = Ok n → 0 ≤ n.
Proof.
  induction s as [|c s IH]; intros acc n Hacc; simpl.
  - intros [= <-]. done.
  - destruct (decimal_char c) as [d|] eqn:Hc; [|done].
    apply IH. specialize (Hdigits c d Hc). lia.
Qed.

Lemma int_nonneg s n : Py.int s = Ok n → 0 ≤ n.
Proof.
  unfold Py.int. destruct s; [done|].
  destruct (_ <? _)%nat; [done|]. by apply int_digits_nonneg.
Qed.

Lemma letter_nonneg s c :
  Py.isalpha s = true → Py.ord s = Ok c → 0 ≤ c - 65.
Proof.
  destruct s as [|ch [|??]]; try done. unfold Py.isalpha. simpl.
  rewrite andb_true_r. intros Hch [= <-]. specialize (Hletters ch Hch). lia.
Qed.

Lemma token_index_lower x i : token_index x = Ok (Some i) → -1 ≤ i.
Proof.
  unfold token_index. destruct (Py.isdigit _).
  - intros Hx. inv_bind Hx. injection Hx as <-.
    apply int_nonneg in Ha. lia.
  - destruct (bool_decide _); [|done]. simpl.
    destruct (Py.isalpha _) eqn:Halpha; [|done].
    intros Hx. inv_bind Hx. injection Hx as <-.
    pose proof (letter_nonneg _ _ Halpha Ha). lia.
Qed.

Lemma multi_indices_lower tokens : ∀ indices,
  multi_indices tokens = Ok indices → Forall (λ i, -1 ≤ i) indices.
Proof.
  induction tokens as [|x rest IH]; intros indices; simpl.
  - intros [= <-]. constructor.
  - intros Hm. inv_bind Hm. injection Hm as <-.
    destruct a as [i|]; [|by apply IH].
    constructor; [by eapply token_index_lower|by apply IH].
Qed.

Lemma text_match_lower ca choices : ∀ i,
  0 ≤ i → Forall (λ j, -1 ≤ j) (text_match ca i choices).
Proof.
  induction choices as [|c cs IH]; intros i Hi; simpl; [constructor|].
  case_bool_decide; [repeat constructor; lia|]. apply IH. lia.
Qed.

Lemma resolve_lower t choices ca t' indices :
  resolve t choices ca = Ok (t', indices) → Forall (λ i, -1 ≤ i) indices.
Proof.
  unfold resolve.
  destruct (contains_char comma ca).
  { intros Hr. inv_bind Hr. injection Hr as _ <-.
    by eapply multi_indices_lower. }
  destruct (contains (lower ca) _).
  { intros [= _ <-]. repeat constructor. case_bool_decide; lia. }
  destruct (Py.isdigit ca).
  { intros Hr. inv_bind Hr. injection Hr as _ <-.
    apply int_nonneg in Ha. repeat constructor. lia. }
  destruct (bool_decide _); simpl.
  - destruct (Py.isalpha (upper (Py.strip ca))) eqn:Halpha.
    + intros Hr. inv_bind Hr. injection Hr as _ <-.
      pose proof (letter_nonneg _ _ Halpha Ha). repeat constructor. lia.
    + intros [= _ <-]. by apply text_match_lower.
  - intros [= _ <-]. by apply text_match_lower.
Qed.
End index_range.

Lemma latin1_digits_from_zero : digits_from_zero.
Proof.
  intros c d. simpl. unfold latin1_decimal, between.
  destruct (N.leb_spec 0x30 c); simpl; [|done].
  destruct (N.leb_spec c 0x39); simpl; [|done]. intros [= <-]. lia.
Qed.

Lemma latin1_letters_from_A : letters_from_A.
Proof.
  intros c. simpl. unfold latin1_isalpha, between.
  destruct (N.leb_spec 0x41 c); [done|].
  repeat match goal with
         | |- context [(?a <=? ?b)%N] => destruct (N.leb_spec a b); try lia
         | |- context [(?a =? ?b)%N] => destruct (N.eqb_spec a b); try lia
         end; simpl; done.
Qed.

(** X20.  In a character database whose decimal digits have values from
    zero up and whose letters do not stand before the capital A, as in
    Unicode, no correct index of a parsed question is below -1, so
    [chr(65 + i)] can fail on the high side only. *)
Theorem correct_indices_lower_bound `{Unicode} (r : row) (q : Question) :
  digits_from_zero → letters_from_A →
  parse_row r = Ok (Some q) →
  Forall (λ i, -1 ≤ i ∧ (has_letter i ↔ i < 0x110000 - 65)) (correct_indices q).
Proof.
  intros Hdigits Hletters (ca & _ & _ & Hres)%parse_row_Some.
  eapply Forall_impl; [by eapply resolve_lower|].
  intros i Hi. cbv beta in *. unfold has_letter. lia.
Qed.

Lemma correct_indices_lower_bound_witness :
  ∃ q, parse_row (four_choices (lit "0, 2, a")) = Ok (Some q)
       ∧ correct_indices q = [-1; 1; 0]
       ∧ Forall (λ i, -1 ≤ i ∧ (has_letter i ↔ i < 0x110000 - 65))
           (correct_indices q).
Proof.
  eexists. split; [vm_compute; reflexivity|]. split; [reflexivity|].
  apply (correct_indices_lower_bound (four_choices (lit "0, 2, a"))).
  - apply latin1_digits_from_zero.
  - apply latin1_letters_from_A.
  - vm_compute. reflexivity.
Defined.

(** * The section id derived from the file name *)

Lemma replace_go_elem (old new : str) (c : N) s : ∀ skip,
  c ∈ Py.replace_go old new skip s → c ∈ s ∨ c ∈ new.
Proof.
  induction s as [|c' s IH]; intros skip; simpl.
  - intros Hc. by apply elem_of_nil in Hc.
  - destruct skip as [|k].
    + case_bool_decide.
      * intros [Hc|Hc]%elem_of_app; [by right|].
        destruct (IH _ Hc); [left; by right|by right].
      * intros [->|Hc]%elem_of_cons; [left; left|].
        destruct (IH _ Hc); [left; by right|by right].
    + intros Hc. destruct (IH _ Hc); [left; by right|by right].
Qed.

Lemma replace_char_gone (c : N) (new s : str) :
  c ∉ new → c ∉ Py.replace [c] new s.
Proof.
  intros Hnew. unfold Py.replace. induction s as [|c' s IH]; simpl.
  - apply not_elem_of_nil.
  - case_bool_decide as Hpre.
    + intros [Hc|Hc]%elem_of_app; [done|]. by apply IH.
    + intros [->|Hc]%elem_of_cons; [|by apply IH].
      apply Hpre. by exists s.
Qed.

(** X21.  Where uppercasing brings in no space and no underscore, as in
    Unicode, the section id derived from a file name holds neither a space
    nor an underscore. *)
Theorem filename_section_id_separators `{Unicode} (stem : str) :
  upper_keeps_separators →
  (0x20%N ∉ filename_section_id stem) ∧ (0x5F%N ∉ filename_section_id stem).
Proof.
  intros Hupper. unfold filename_section_id.
  set (s1 := Py.replace (lit " ") (lit "-") stem).
  set (s2 := Py.replace (lit "_") (lit "-") s1).
  assert (0x20%N ∉ s1) as Hs1.
  { apply (replace_char_gone 0x20). change (lit "-") with [0x2D%N].
    by intros ?%list_elem_of_singleton. }
  assert (0x5F%N ∉ s2) as Hs2.
  { apply (replace_char_gone 0x5F). change (lit "-") with [0x2D%N].
    by intros ?%list_elem_of_singleton. }
  assert (0x20%N ∉ s2) as Hs2'.
  { intros [Hc|Hc]%replace_go_elem; [done|].
    change (lit "-") with [0x2D%N] in Hc.
    by apply list_elem_of_singleton in Hc. }
  assert (∀ c, c = 0x20%N ∨ c = 0x5F%N → c ∉ upper s2) as Hs3.
  { intros c Hc Hin. pose proof (Hupper s2 c Hin Hc) as Hin'.
    by destruct Hc as [->| ->]. }
  assert (∀ c s, c ∈ Py.replace (lit "-FORMATTED") (lit "")
                       (Py.replace (lit ".CSV") (lit "")
                          (Py.replace (lit ".XLSX") (lit "") s)) → c ∈ s)
    as Hdrop.
  { intros c s Hc.
    apply replace_go_elem in Hc as [Hc|Hc]; [|by apply elem_of_nil in Hc].
    apply replace_go_elem in Hc as [Hc|Hc]; [|by apply elem_of_nil in Hc].
    apply replace_go_elem in Hc as [Hc|Hc]; [done|by apply elem_of_nil in Hc]. }
  split; intros Hc%Hdrop.
  - apply (Hs3 0x20%N); [by left|done].
  - apply (Hs3 0x5F%N); [by right|done].
Qed.

Lemma latin1_upper_keeps_separators : upper_keeps_separators.
Proof.
  intros s c Hc Hsep. simpl in Hc. apply list_elem_of_bind in Hc as (c' & Hc & Hc').
  assert (c = c') as ->; [|done].
  unfold latin1_upper_char, between in Hc.
  repeat match type of Hc with
         | context [(?a <=? ?b)%N] => destruct (N.leb_spec a b)
         | context [(?a =? ?b)%N] => destruct (N.eqb_spec a b)
         end; simpl in Hc;
    repeat match type of Hc with
           | _ ∈ _ :: _ => apply elem_of_cons in Hc as [Hc|Hc]
           | _ ∈ [] => by apply elem_of_nil in Hc
           end; lia.
Qed.

Lemma filename_section_id_separators_witness :
  filename_section_id (lit "my quiz_file.csv-formatted") = lit "MY-QUIZ-FILE"
  ∧ (0x20%N ∉ filename_section_id (lit "my quiz_file.csv-formatted"))
  ∧ (0x5F%N ∉ filename_section_id (lit "my quiz_file.csv-formatted")).
Proof.
  split; [vm_compute; reflexivity|].
  apply (filename_section_id_separators (lit "my quiz_file.csv-formatted")).
  apply latin1_upper_keeps_separators.
Defined.

(** * The exit of main *)

Section exit_status.
Context `{Unicode}.

Lemma parse_row_exn r e :
  parse_row r = Raise e →
  e = AttributeError ∨ e = ValueError ∨ e = TypeError.
Proof.
  unfold parse_row. intros Hr.
  destruct (negb (truthy (r !! "Question"%string))); [done|].
  apply bind_Raise in Hr as [Hr|(text & _ & Hr)].
  { unfold value_strip in Hr. destruct (get_or_empty r "Question"); naive_solver. }
  destruct (negb (truthy (Some (PyStr text)))); [done|].
  apply bind_Raise in Hr as [Hr|(expl & _ & Hr)].
  { unfold value_strip in Hr. destruct (get_or_empty r "Explanation"); naive_solver. }
  apply bind_Raise in Hr as [Hr|(src & _ & Hr)].
  { unfold value_strip in Hr. destruct (get_or_empty r "Source"); naive_solver. }
  apply bind_Raise in Hr as [Hr|(ca & _ & Hr)].
  { unfold value_strip in Hr.
    destruct (get_or_empty r "Correct Answer"); naive_solver. }
  apply bind_Raise in Hr as [Hr|([??] & _ & Hr)]; [|done].
  apply resolve_exn in Hr. naive_solver.
Qed.

Lemma parse_csv_questions_exn reader e :
  parse_csv_questions reader = Raise e →
  e = AttributeError ∨ e = ValueError ∨ e = TypeError.
Proof.
  induction reader as [|r reader IH]; simpl; [done|].
  intros [Hr|(o & _ & Hr)]%bind_Raise; [by eapply parse_row_exn|].
  apply bind_Raise in Hr as [Hr|(qs & _ & Hr)]; [by apply IH|done].
Qed.

Lemma parse_csv_questions_nil reader :
  parse_csv_questions reader = Ok [] ↔ Forall blank_question reader.
Proof.
  induction reader as [|r reader IH]; simpl.
  - split; [constructor|done].
  - rewrite Forall_cons, <-IH, <-parse_row_None.
    destruct (parse_row r) as [[q|]|e]; simpl;
      destruct (parse_csv_questions reader) as [[|??]|e']; simpl; naive_solver.
Qed.

Lemma create_xlsx_output_exn questions section_id e :
  create_xlsx_output questions section_id = Raise e →
  e = TypeError ∨ e = ValueError ∨ e = OverflowError.
Proof.
  unfold create_xlsx_output. intros Hc.
  apply bind_Raise in Hc as [Hd|(debug & _ & Hc)]; [|done].
  destruct (keys_computable section_id questions) eqn:Hkeys.
  2:{ rewrite debug_rows_long in Hd by done. naive_solver. }
  assert (∀ k, tags_of_kind k section_id questions →
               e = ValueError ∨ e = OverflowError) as Hkind.
  { intros k Hk.
    pose proof (debug_rows_same_kind k questions section_id Hkeys Hk) as Ho.
    destruct (first_bad_index questions) as [idx|].
    - rewrite Ho in Hd. injection Hd as <-. unfold chr_exn.
      destruct (decide (c_int (65 + idx))); auto.
    - by rewrite Hd in Ho. }
  destruct (decide (tags_of_kind true section_id questions)) as [Ht|Ht];
    [|destruct (decide (tags_of_kind false section_id questions)) as [Hf|Hf]].
  - destruct (Hkind true Ht); auto.
  - destruct (Hkind false Hf); auto.
  - rewrite (debug_rows_mixed questions section_id Hkeys Ht Hf) in Hd.
    naive_solver.
Qed.
End exit_status.

(** X22.  Given the records of the input file, [main] reaches the
    [sys.exit(1)] of line 232 exactly when no record has a question, the
    empty input included: that is when the parser returns the empty list, and
    neither a record that raises nor the building of the two tables ends the
    run in that way.  An exception of the parser is caught nowhere and ends
    the run as it is: AttributeError, ValueError or TypeError. *)
Theorem main_exit_status `{Unicode} (stem : str) (reader : list row) :
  (parse_csv_questions reader = Ok [] ↔ Forall blank_question reader)
  ∧ (main stem reader = Raise (SystemExit 1) ↔ Forall blank_question reader)
  ∧ ∀ e, parse_csv_questions reader = Raise e →
         main stem reader = Raise e
         ∧ (e = AttributeError ∨ e = ValueError ∨ e = TypeError).
Proof.
  split; [apply parse_csv_questions_nil|].
  rewrite <-parse_csv_questions_nil. unfold main.
  destruct (parse_csv_questions reader) as [[|q qs]|e'] eqn:Hparse; simpl.
  - split; [done|]. intros e [=].
  - destruct (create_xlsx_output _ _) as [[??]|e''] eqn:Hcreate; simpl.
    + split; [done|]. intros e [=].
    + apply create_xlsx_output_exn in Hcreate. split; [|intros e [=]].
      split; [|done]. intros [= ->]. naive_solver.
  - apply parse_csv_questions_exn in Hparse.
    split; [naive_solver|]. intros e [= <-]. done.
Qed.
